(** * memory_mcp: the in-memory note store and its audit log

    A shallow embedding of [memory_mcp.py].  The module state of the
    program (the dictionary [memory_store] and the append-only file
    [memory_operations.log]) is threaded explicitly; what the program reads
    from its surroundings (the wall clock, [uuid.uuid4()], whether a file
    can be written) is handed to every operation in an [Env].

    Modelling conventions.
    - A Python [str] is the [string] of its UTF-8 bytes.  [len] counts
      characters (code points), and a slice cuts between characters: see
      [chars], [len] and [slice].
    - A Python [dict] keeps insertion order, and the program shows that
      order ([', '.join(available_keys)], ties in [sorted]); the store is
      therefore an association list in insertion order.
    - An entry of the store is the three-field dictionary built by
      [create_memory_entry] and [update_memory]; it is a record here.  A
      snapshot file whose entries lack one of the three fields is outside
      the model.
    - [memory_store[k]] and [del memory_store[k]] raise [KeyError] on an
      absent key; the [try ... except Exception] of every tool function is
      kept, and the theorems show when its handler runs.
    - The [while] loop of [create_memory] is run with fuel; running out of
      fuel is an outcome of its own, and is shown never to happen.
    - The log file is the list of the records appended to it; of the
      snapshot file only the outcome of writing it is kept.
    - [%Y] is taken to give four digits, as it does for the years 1000 to
      9999. *)

From Stdlib Require Import List Arith NArith Lia Bool String Ascii
  DecimalString DecimalNat Permutation Sorted FinFun.
Import ListNotations.

Local Open Scope list_scope.
Local Open Scope string_scope.

(** ** Text helpers *)

Definition nl : string := String (ascii_of_nat 10) EmptyString.

(** U+1F9E0, the four bytes of its UTF-8 encoding. *)
Definition brain : string :=
  String (ascii_of_nat 240) (String (ascii_of_nat 159)
    (String (ascii_of_nat 167) (String (ascii_of_nat 160) EmptyString))).

(** [str(n)] for a natural number. *)
Definition str_nat (n : nat) : string :=
  NilEmpty.string_of_uint (Nat.to_uint n).

Fixpoint zeros (n : nat) : string :=
  match n with
  | 0 => EmptyString
  | S n' => String "0"%char (zeros n')
  end.

(** [f"{n:0wd}"]: decimal, padded with zeros on the left up to width [w]
    and never truncated. *)
Definition fmt_0d (w n : nat) : string :=
  let s := str_nat n in
  zeros (w - String.length s) ++ s.

(** A byte that continues a UTF-8 sequence: [10xxxxxx]. *)
Definition is_continuation (c : ascii) : bool :=
  let n := nat_of_ascii c in
  ((128 <=? n)%nat && (n <? 192)%nat).

Definition starts_with_continuation (s : string) : bool :=
  match s with
  | EmptyString => false
  | String c _ => is_continuation c
  end.

(** The characters of a string, each with the bytes that encode it: a byte
    and the continuation bytes that follow it. *)
Fixpoint chars (s : string) : list string :=
  match s with
  | EmptyString => []
  | String c s' =>
      match chars s' with
      | x :: rest =>
          if starts_with_continuation s'
          then String c x :: rest
          else String c EmptyString :: x :: rest
      | [] => [String c EmptyString]
      end
  end.

(** [len(s)] *)
Definition len (s : string) : nat := List.length (chars s).

(** [s[i:j]] for [i] and [j] that are not negative. *)
Definition slice (i j : nat) (s : string) : string :=
  String.concat "" (firstn (j - i) (skipn i (chars s))).

(** [s.rstrip()], with the white space of ASCII. *)
Definition is_space (c : ascii) : bool :=
  let n := nat_of_ascii c in
  ((9 <=? n)%nat && (n <=? 13)%nat) || ((28 <=? n)%nat && (n <=? 32)%nat).

Fixpoint drop_spaces (l : list ascii) : list ascii :=
  match l with
  | [] => []
  | c :: l' => if is_space c then drop_spaces l' else l
  end.

Definition rstrip (s : string) : string :=
  string_of_list_ascii (rev (drop_spaces (rev (list_ascii_of_string s)))).

(** ** The clock *)

Record datetime : Type := mk_datetime {
  year : nat; month : nat; day : nat;
  hour : nat; minute : nat; second : nat;
  microsecond : nat
}.

(** [now.strftime('%Y%m%d%H%M%S')] *)
Definition strftime_YmdHMS (now : datetime) : string :=
  fmt_0d 4 (year now) ++ fmt_0d 2 (month now) ++ fmt_0d 2 (day now) ++
  fmt_0d 2 (hour now) ++ fmt_0d 2 (minute now) ++ fmt_0d 2 (second now).

(** [now.isoformat()]: the fraction is left out when it is zero. *)
Definition isoformat (now : datetime) : string :=
  fmt_0d 4 (year now) ++ "-" ++ fmt_0d 2 (month now) ++ "-" ++
  fmt_0d 2 (day now) ++ "T" ++ fmt_0d 2 (hour now) ++ ":" ++
  fmt_0d 2 (minute now) ++ ":" ++ fmt_0d 2 (second now) ++
  (if (microsecond now =? 0)%nat then "" else "." ++ fmt_0d 6 (microsecond now)).

(** ** Entries and the dictionary *)

Record Entry : Type := mk_entry {
  content : string;
  created_at : string;
  updated_at : string
}.

Definition dict : Type := list (string * Entry).

Fixpoint dict_get (k : string) (d : dict) : option Entry :=
  match d with
  | [] => None
  | (k', v) :: d' => if String.eqb k k' then Some v else dict_get k d'
  end.

(** [k in d] *)
Definition dict_mem (k : string) (d : dict) : bool :=
  match dict_get k d with
  | Some _ => true
  | None => false
  end.

(** [d[k] = v]: an existing key keeps its place, a new one goes last. *)
Fixpoint dict_set (k : string) (v : Entry) (d : dict) : dict :=
  match d with
  | [] => [(k, v)]
  | (k', v') :: d' =>
      if String.eqb k k' then (k, v) :: d' else (k', v') :: dict_set k v d'
  end.

(** [del d[k]] on a dictionary that holds [k]. *)
Definition dict_del (k : string) (d : dict) : dict :=
  filter (fun kv => negb (String.eqb k (fst kv))) d.

(** [list(d.keys())] *)
Definition dict_keys (d : dict) : list string := map fst d.

(** ** Audit records *)

Inductive meta_value : Type :=
| MInt (n : nat)
| MBool (b : bool)
| MStr (s : string).

Record log_entry : Type := mk_log_entry {
  timestamp : string;
  operation_id : string;
  operation : string;
  key : option string;
  before : option Entry;
  after : option Entry;
  success : bool;
  error : option string;
  metadata : list (string * meta_value)
}.

(** ** Program state, surroundings, and the monad of the tool functions *)

Record State : Type := mk_state {
  memory_store : dict;
  log_file : list log_entry
}.

(** What one call of [log_operation] reads: the clock, a fresh uuid, and
    whether the line can be appended. *)
Record LogEnv : Type := mk_log_env {
  log_now : datetime;
  log_uuid : string;
  log_writable : bool
}.

(** What one call of a tool function reads. *)
Record Env : Type := mk_env {
  key_now : datetime;        (* the clock in [generate_auto_key] *)
  entry_now : datetime;      (* the clock in [create_memory_entry],
                                and [now] in [update_memory] *)
  log_env : LogEnv;          (* [log_operation] in the [try] body *)
  handler_log_env : LogEnv;  (* [log_operation] in the [except] handler *)
  file_writable : bool       (* can [memory_data.json] be written *)
}.

Inductive exn : Type :=
| KeyError (k : string).

(** [str(e)]; for a [KeyError] this is the quoted key. *)
Definition str_exn (e : exn) : string :=
  match e with
  | KeyError k => "'" ++ k ++ "'"
  end.

Inductive outcome (A : Type) : Type :=
| Done (a : A)
| Raised (e : exn)
| OutOfFuel.
Arguments Done {A} a.
Arguments Raised {A} e.
Arguments OutOfFuel {A}.

Definition M (A : Type) : Type := State -> outcome A * State.

Definition ret {A} (a : A) : M A := fun st => (Done a, st).

Definition bind {A B} (m : M A) (f : A -> M B) : M B :=
  fun st =>
    match m st with
    | (Done a, st') => f a st'
    | (Raised e, st') => (Raised e, st')
    | (OutOfFuel, st') => (OutOfFuel, st')
    end.

Definition lift {A} (o : outcome A) : M A := fun st => (o, st).

(** [try: body  except Exception as e: handler e] *)
Definition try_except {A} (body : M A) (handler : exn -> M A) : M A :=
  fun st =>
    match body st with
    | (Raised e, st') => handler e st'
    | r => r
    end.

Notation "x <- c1 ;; c2" := (bind c1 (fun x => c2))
  (at level 61, c1 at next level, right associativity).
Notation "c1 ;; c2" := (bind c1 (fun _ => c2))
  (at level 61, right associativity).

Definition get_store : M dict := fun st => (Done (memory_store st), st).

Definition put_store (d : dict) : M unit :=
  fun st => (Done tt, mk_state d (log_file st)).

(** [memory_store[k]] *)
Definition getitem (k : string) (d : dict) : outcome Entry :=
  match dict_get k d with
  | Some v => Done v
  | None => Raised (KeyError k)
  end.

(** [memory_store[k] = v] *)
Definition setitem (k : string) (v : Entry) : M unit :=
  d <- get_store ;; put_store (dict_set k v d).

(** [del memory_store[k]] *)
Definition delitem (k : string) : M unit :=
  d <- get_store ;;
  if dict_mem k d then put_store (dict_del k d) else lift (Raised (KeyError k)).

(** Sequencing of computations that only read the state. *)
Definition obind {A B} (o : outcome A) (f : A -> outcome B) : outcome B :=
  match o with
  | Done a => f a
  | Raised e => Raised e
  | OutOfFuel => OutOfFuel
  end.

(** ** The functions of [memory_mcp.py] *)

(** [save_memory_to_file]: [True] when the snapshot was written, [False]
    (after a message on stdout) when writing raised. *)
Definition save_memory_to_file (env : Env) : M bool :=
  ret (file_writable env).

Definition generate_auto_key (now : datetime) : string :=
  "memory_" ++ strftime_YmdHMS now.

Definition create_memory_entry (now : datetime) (new_content : string) : Entry :=
  let now := isoformat now in
  {| content := new_content; created_at := now; updated_at := now |}.

(** [log_operation]: one record appended to the log; when the append
    raises, the exception is caught inside and nothing is appended. *)
Definition log_operation (le : LogEnv) (operation : string)
    (key : option string) (before after : option Entry)
    (success : bool) (error : option string)
    (metadata : list (string * meta_value)) : M unit :=
  fun st =>
    let log_entry :=
      mk_log_entry (isoformat (log_now le)) (log_uuid le) operation key
                   before after success error metadata in
    if log_writable le
    then (Done tt, mk_state (memory_store st) (log_file st ++ [log_entry])%list)
    else (Done tt, st).

(** [sorted(keys, key=lambda k: memory_store[k]['created_at'], reverse=True)]:
    the sort keys are computed first, one per element and in order; the
    sort is stable, and with [reverse=True] elements with equal sort keys
    keep their original order. *)
Fixpoint decorate (d : dict) (keys : list string)
  : outcome (list (string * string)) :=
  match keys with
  | [] => Done []
  | k :: ks =>
      obind (getitem k d) (fun e =>
      obind (decorate d ks) (fun r =>
      Done ((created_at e, k) :: r)))
  end.

Fixpoint insert_desc (x : string * string) (l : list (string * string))
  : list (string * string) :=
  match l with
  | [] => [x]
  | y :: l' =>
      if String.ltb (fst x) (fst y) then y :: insert_desc x l' else x :: l
  end.

Definition sort_desc (l : list (string * string)) : list (string * string) :=
  fold_right insert_desc [] l.

Definition sorted_by_created_at (d : dict) (keys : list string)
  : outcome (list string) :=
  obind (decorate d keys) (fun l => Done (map snd (sort_desc l))).

(** The body of [for i, key in enumerate(sorted_keys, 1)]. *)
Fixpoint render_entries (d : dict) (i : nat) (sorted_keys : list string)
    (result : string) : outcome string :=
  match sorted_keys with
  | [] => Done result
  | k :: rest =>
      obind (getitem k d) (fun entry =>
        let created_date := slice 0 10 (created_at entry) in
        let created_time := slice 11 19 (created_at entry) in
        let result := result ++ str_nat i ++ ". [" ++ k ++ "]" ++ nl in
        let result := result ++ "   " ++ content entry ++ nl in
        let result :=
          result ++ "   " ++ created_date ++ " " ++ created_time ++ " (" ++
          str_nat (len (content entry)) ++ " chars)" ++ nl ++ nl in
        render_entries d (S i) rest result)
  end.

Definition list_memory (env : Env) : M string :=
  try_except
    (d <- get_store ;;
     log_operation (log_env env) "list" None None None true None
                   [("entry_count", MInt (List.length d))] ;;
     d <- get_store ;;
     match d with
     | _ :: _ =>
         let keys := dict_keys d in
         sorted_keys <- lift (sorted_by_created_at d keys) ;;
         let result :=
           brain ++ " " ++ str_nat (List.length keys) ++ " memory entries:" ++
           nl ++ nl in
         result <- lift (render_entries d 1 sorted_keys result) ;;
         ret (rstrip result)
     | [] => ret "No user info saved yet."
     end)
    (fun e =>
       log_operation (handler_log_env env) "list" None None None false
                     (Some (str_exn e)) [] ;;
       ret ("Failed to list memory: " ++ str_exn e)).

(** [while key in memory_store: key = f"{original_key}_{counter:02d}";
    counter += 1], then the value of [key].  Every turn of the loop costs
    one unit of fuel. *)
Fixpoint while_key_in_store (fuel : nat) (d : dict)
    (original_key k : string) (counter : nat) : outcome string :=
  if dict_mem k d then
    match fuel with
    | 0 => OutOfFuel
    | S fuel' =>
        while_key_in_store fuel' d original_key
          (original_key ++ "_" ++ fmt_0d 2 counter) (S counter)
    end
  else Done k.

(** [len(content) if content else 0] *)
Definition attempted_content_length (new_content : string) : nat :=
  match new_content with
  | EmptyString => 0
  | _ => len new_content
  end.

(** The loop is given as much fuel as the store has entries; by
    [while_key_in_store_terminates] that is enough, and by
    [while_key_in_store_fuel] more fuel gives the same key. *)
Definition create_memory (env : Env) (new_content : string) : M string :=
  try_except
    (d <- get_store ;;
     let k := generate_auto_key (key_now env) in
     let original_key := k in
     let counter := 1 in
     k <- lift (while_key_in_store (List.length d) d original_key k counter) ;;
     let new_entry := create_memory_entry (entry_now env) new_content in
     setitem k new_entry ;;
     log_operation (log_env env) "create" (Some k) None (Some new_entry)
                   true None
                   [("content_length", MInt (len new_content));
                    ("auto_generated_key", MStr k)] ;;
     saved <- save_memory_to_file env ;;
     if saved
     then ret ("Saved: '" ++ k ++ "'")
     else ret "Saved in memory, file write failed.")
    (fun e =>
       log_operation (handler_log_env env) "create" None None None false
                     (Some (str_exn e))
                     [("attempted_content_length",
                       MInt (attempted_content_length new_content))] ;;
       ret ("Failed to save: " ++ str_exn e)).

(** The message of the three not-found branches; [no_data] is the
    sentence used when the store is empty. *)
Definition not_found_message (k : string) (available_keys : list string)
    (no_data : string) : string :=
  match available_keys with
  | _ :: _ =>
      "Key '" ++ k ++ "' not found. Available: " ++
      String.concat ", " available_keys
  | [] => "Key '" ++ k ++ "' not found. " ++ no_data
  end.

Definition update_memory (env : Env) (k new_content : string) : M string :=
  try_except
    (d <- get_store ;;
     if negb (dict_mem k d) then
       log_operation (log_env env) "update" (Some k) None None false
                     (Some "Key not found") [] ;;
       d <- get_store ;;
       let available_keys := dict_keys d in
       ret (not_found_message k available_keys "No memory data exists.")
     else
       existing_entry <- lift (getitem k d) ;;
       let now := isoformat (entry_now env) in
       let updated_entry :=
         {| content := new_content;
            created_at := created_at existing_entry;
            updated_at := now |} in
       setitem k updated_entry ;;
       log_operation (log_env env) "update" (Some k)
                     (Some existing_entry) (Some updated_entry) true None
                     [("old_content_length",
                       MInt (len (content existing_entry)));
                      ("new_content_length",
                       MInt (len new_content));
                      ("content_changed",
                       MBool (negb (String.eqb (content existing_entry)
                                               new_content)))] ;;
       saved <- save_memory_to_file env ;;
       if saved
       then ret ("Updated: '" ++ k ++ "'")
       else ret "Updated in memory, file write failed.")
    (fun e =>
       log_operation (handler_log_env env) "update" (Some k) None None false
                     (Some (str_exn e))
                     [("attempted_content_length",
                       MInt (attempted_content_length new_content))] ;;
       ret ("Failed to update memory: " ++ str_exn e)).

Definition read_memory (env : Env) (k : string) : M string :=
  try_except
    (d <- get_store ;;
     if dict_mem k d then
       entry <- lift (getitem k d) ;;
       log_operation (log_env env) "read" (Some k) None None true None
                     [("content_length",
                       MInt (len (content entry)))] ;;
       ret ("Key: '" ++ k ++ "'" ++ nl ++
            content entry ++ nl ++
            "--- Metadata ---" ++ nl ++
            "Created: " ++ created_at entry ++ nl ++
            "Updated: " ++ updated_at entry ++ nl ++
            "Chars: " ++ str_nat (len (content entry)))
     else
       log_operation (log_env env) "read" (Some k) None None false
                     (Some "Key not found") [] ;;
       d <- get_store ;;
       let available_keys := dict_keys d in
       ret (not_found_message k available_keys "No memory data."))
    (fun e =>
       log_operation (handler_log_env env) "read" (Some k) None None false
                     (Some (str_exn e)) [] ;;
       ret ("Failed to read memory: " ++ str_exn e)).

Definition delete_memory (env : Env) (k : string) : M string :=
  try_except
    (d <- get_store ;;
     if dict_mem k d then
       deleted_entry <- lift (getitem k d) ;;
       delitem k ;;
       log_operation (log_env env) "delete" (Some k) (Some deleted_entry)
                     None true None
                     [("deleted_content_length",
                       MInt (len (content deleted_entry)))] ;;
       saved <- save_memory_to_file env ;;
       if saved
       then ret ("Deleted '" ++ k ++ "'")
       else ret ("Deleted '" ++ k ++ "', file write failed.")
     else
       log_operation (log_env env) "delete" (Some k) None None false
                     (Some "Key not found") [] ;;
       d <- get_store ;;
       let available_keys := dict_keys d in
       ret (not_found_message k available_keys "No memory data."))
    (fun e =>
       log_operation (handler_log_env env) "delete" (Some k) None None false
                     (Some (str_exn e)) [] ;;
       ret ("Failed to delete memory: " ++ str_exn e)).

(** ** The info resource *)

(** [get_memory_info]; [MEMORY_FILE] is the path of the snapshot file, which
    the program makes from the directory of its script. *)
Definition get_memory_info (MEMORY_FILE : string) : M string :=
  d <- get_store ;;
  let total_chars :=
    list_sum (map (fun entry => len (content entry)) (map snd d)) in
  ret ("User Memory System Info:" ++ nl ++
       "- Entries: " ++ str_nat (List.length d) ++ nl ++
       "- Total chars: " ++ str_nat total_chars ++ nl ++
       "- Data file: " ++ MEMORY_FILE ++ nl ++
       "- Tools: save_memory, read_memory, list_memory, delete_memory" ++ nl ++
       "- Key format: memory_YYYYMMDDHHMMSS" ++ nl ++
       "- Save format: 'User is ...'" ++ nl).

(** ** Sequences of calls *)

Inductive request : Type :=
| ListMemory
| CreateMemory (new_content : string)
| ReadMemory (k : string)
| UpdateMemory (k new_content : string)
| DeleteMemory (k : string).

Definition call (env : Env) (r : request) : M string :=
  match r with
  | ListMemory => list_memory env
  | CreateMemory c => create_memory env c
  | ReadMemory k => read_memory env k
  | UpdateMemory k c => update_memory env k c
  | DeleteMemory k => delete_memory env k
  end.

Fixpoint run (calls : list (Env * request)) (st : State) : State :=
  match calls with
  | [] => st
  | (env, r) :: rest => run rest (snd (call env r st))
  end.

(** * Vocabulary of the properties *)

(** Reading a decimal numeral back, leading zeros allowed. *)
Definition decode (s : string) : option nat :=
  option_map Nat.of_uint (NilEmpty.uint_of_string s).

(** The keys the loop of [create_memory] tries, in order: the time-based
    key itself, then the key with the counters 1, 2, ... appended. *)
Definition candidate (original_key : string) (n : nat) : string :=
  match n with
  | 0 => original_key
  | S _ => original_key ++ "_" ++ fmt_0d 2 n
  end.

(** The record that [log_operation] writes. *)
Definition record_of (le : LogEnv) (op : string) (k : option string)
    (b a : option Entry) (ok : bool) (err : option string)
    (md : list (string * meta_value)) : log_entry :=
  mk_log_entry (isoformat (log_now le)) (log_uuid le) op k b a ok err md.

(** The lines one call of [log_operation] adds to the log. *)
Definition appended (le : LogEnv) (r : log_entry) : list log_entry :=
  if log_writable le then [r] else [].

(** The records of the calls that find their key, and of [create_memory]
    and [list_memory]. *)
Definition create_record (env : Env) (k new_content : string) : log_entry :=
  record_of (log_env env) "create" (Some k) None
    (Some (create_memory_entry (entry_now env) new_content)) true None
    [("content_length", MInt (len new_content));
     ("auto_generated_key", MStr k)].

(** The record of a call that does not find its key. *)
Definition not_found_record (le : LogEnv) (op k : string) : log_entry :=
  record_of le op (Some k) None None false (Some "Key not found") [].

(** The entry that [update_memory] stores in place of [e]. *)
Definition updated_entry_of (env : Env) (e : Entry) (new_content : string)
  : Entry :=
  {| content := new_content;
     created_at := created_at e;
     updated_at := isoformat (entry_now env) |}.

Definition update_record (env : Env) (k : string) (e : Entry)
    (new_content : string) : log_entry :=
  record_of (log_env env) "update" (Some k) (Some e)
    (Some (updated_entry_of env e new_content)) true None
    [("old_content_length", MInt (len (content e)));
     ("new_content_length", MInt (len new_content));
     ("content_changed", MBool (negb (String.eqb (content e) new_content)))].

(** The answer of [read_memory] for a key that holds [entry]. *)
Definition read_text (k : string) (entry : Entry) : string :=
  "Key: '" ++ k ++ "'" ++ nl ++
  content entry ++ nl ++
  "--- Metadata ---" ++ nl ++
  "Created: " ++ created_at entry ++ nl ++
  "Updated: " ++ updated_at entry ++ nl ++
  "Chars: " ++ str_nat (len (content entry)).

Definition read_record (env : Env) (k : string) (e : Entry) : log_entry :=
  record_of (log_env env) "read" (Some k) None None true None
    [("content_length", MInt (len (content e)))].

Definition delete_record (env : Env) (k : string) (e : Entry) : log_entry :=
  record_of (log_env env) "delete" (Some k) (Some e) None true None
    [("deleted_content_length", MInt (len (content e)))].

(** The sort of [sort_desc] seen on the elements, [f] giving the sort key. *)
Fixpoint insert_key (f : string -> string) (x : string) (l : list string)
  : list string :=
  match l with
  | [] => [x]
  | y :: l' =>
      if String.ltb (f x) (f y) then y :: insert_key f x l' else x :: l
  end.

Definition sort_keys (f : string -> string) (l : list string) : list string :=
  fold_right (insert_key f) [] l.

(** [a] may stand before [b]: the sort key of [b] is not greater. *)
Definition desc (f : string -> string) (a b : string) : Prop :=
  String.leb (f b) (f a) = true.

(** An element with its sort key, as [decorate] pairs them. *)
Definition decorated (f : string -> string) (k : string) : string * string :=
  (f k, k).

(** [memory_store[k]['created_at']] for a key of the store. *)
Definition created_of (d : dict) (k : string) : string :=
  match dict_get k d with
  | Some e => created_at e
  | None => ""
  end.

(** The first line of the answer of [list_memory]. *)
Definition list_header (n : nat) : string :=
  brain ++ " " ++ str_nat n ++ " memory entries:" ++ nl ++ nl.

Definition list_record (env : Env) (n : nat) : log_entry :=
  record_of (log_env env) "list" None None None true None
    [("entry_count", MInt n)].

(** [k] is written somewhere in [msg]. *)
Definition occurs_in (k msg : string) : Prop :=
  exists pre post, msg = pre ++ k ++ post.

(** What a not-found answer is: the sentence on the key, then either the
    keys of the store, joined by commas in insertion order, or, for an
    empty store, the sentence [no_data]. *)
Definition not_found_answer (k : string) (keys : list string)
    (no_data msg : string) : Prop :=
  exists tail,
    msg = "Key '" ++ k ++ "' not found. " ++ tail /\
    (keys = [] -> tail = no_data) /\
    (keys <> [] -> tail = "Available: " ++ String.concat ", " keys) /\
    (forall k', In k' keys -> occurs_in k' tail).

(** The record of a not-found answer. *)
Definition not_found_logged (le : LogEnv) (op k : string)
    (before_log after_log : list log_entry) : Prop :=
  exists r,
    after_log = (before_log ++ if log_writable le then [r] else [])%list /\
    operation r = op /\ key r = Some k /\
    success r = false /\ error r = Some "Key not found".

(** The same surroundings, the snapshot file writable or not. *)
Definition set_file_writable (b : bool) (env : Env) : Env :=
  mk_env (key_now env) (entry_now env) (log_env env) (handler_log_env env) b.

(** The requests that change the store when served in state [st]. *)
Definition mutates (st : State) (r : request) : bool :=
  match r with
  | CreateMemory _ => true
  | UpdateMemory k _ => dict_mem k (memory_store st)
  | DeleteMemory k => dict_mem k (memory_store st)
  | ListMemory => false
  | ReadMemory _ => false
  end.

(** The request names a key that the store does not hold. *)
Definition not_found (st : State) (r : request) : bool :=
  match r with
  | ReadMemory k => negb (dict_mem k (memory_store st))
  | UpdateMemory k _ => negb (dict_mem k (memory_store st))
  | DeleteMemory k => negb (dict_mem k (memory_store st))
  | ListMemory => false
  | CreateMemory _ => false
  end.

(** The name under which a request is logged. *)
Definition operation_name (r : request) : string :=
  match r with
  | ListMemory => "list"
  | CreateMemory _ => "create"
  | ReadMemory _ => "read"
  | UpdateMemory _ _ => "update"
  | DeleteMemory _ => "delete"
  end.

(** The store [d'] that serving [r] leaves. *)
Definition store_after (env : Env) (st : State) (r : request) (d' : dict)
  : Prop :=
  let d := memory_store st in
  match r with
  | ListMemory => d' = d
  | ReadMemory _ => d' = d
  | CreateMemory c =>
      exists k,
        dict_get k d = None /\
        d' = (d ++ [(k, create_memory_entry (entry_now env) c)])%list
  | UpdateMemory k c =>
      match dict_get k d with
      | Some e => d' = dict_set k (updated_entry_of env e c) d
      | None => d' = d
      end
  | DeleteMemory k =>
      match dict_get k d with
      | Some _ => d' = dict_del k d
      | None => d' = d
      end
  end.

(** No entry was updated before it was created. *)
Definition store_inv (d : dict) : Prop :=
  forall k e,
    dict_get k d = Some e ->
    String.leb (created_at e) (updated_at e) = true.

(** The clock of an update does not show a time before the creation time
    of the entry that is updated. *)
Definition clock_ok (st : State) (env : Env) (r : request) : Prop :=
  match r with
  | UpdateMemory k _ =>
      match dict_get k (memory_store st) with
      | Some e => String.leb (created_at e) (isoformat (entry_now env)) = true
      | None => True
      end
  | _ => True
  end.

(** [clock_ok] at every call of a sequence. *)
Fixpoint clock_respected (calls : list (Env * request)) (st : State) : Prop :=
  match calls with
  | [] => True
  | (env, r) :: rest =>
      clock_ok st env r /\ clock_respected rest (snd (call env r st))
  end.

(** ** Values for the examples *)

Definition t_2025 : datetime := mk_datetime 2025 7 24 22 53 17 250.
Definition t_2024 : datetime := mk_datetime 2024 1 2 3 4 5 0.
Definition log_ok : LogEnv := mk_log_env t_2025 "5f0c" true.
Definition log_down : LogEnv := mk_log_env t_2025 "5f0d" false.
Definition env_ok : Env := mk_env t_2025 t_2025 log_ok log_ok true.
Definition env_disk_full : Env := mk_env t_2025 t_2025 log_ok log_ok false.
Definition env_log_down : Env := mk_env t_2025 t_2025 log_down log_down true.
Definition env_clock_back : Env := mk_env t_2024 t_2024 log_ok log_ok true.
Definition empty_state : State := mk_state [] [].

(** A store that already holds the time-based key of [t_2025] and the same
    key with the counters 1 to 98. *)
Definition crowded_store : dict :=
  map (fun n => (candidate (generate_auto_key t_2025) n,
                 create_memory_entry t_2025 "note"))
      (seq 0 99).

(** A store with three notes: one of [t_2024], then two of [t_2025]. *)
Definition three_notes : State :=
  run [(env_clock_back, CreateMemory "User likes tea");
       (env_ok, CreateMemory "User likes jazz");
       (env_ok, CreateMemory "User likes chess")] empty_state.

(** A store with two notes, made by two calls in the same second. *)
Definition two_notes : State :=
  run [(env_ok, CreateMemory "User likes tea");
       (env_ok, CreateMemory "User likes jazz")] empty_state.

(** * Vocabulary of the further properties *)

(** The characters [0] to [9]. *)
Definition is_digit (c : ascii) : bool :=
  ((48 <=? nat_of_ascii c)%nat && (nat_of_ascii c <=? 57)%nat).

Fixpoint all_digits (s : string) : bool :=
  match s with
  | EmptyString => true
  | String c s' => is_digit c && all_digits s'
  end.

(** Strings of ASCII characters: every byte is below 128, and is a character
    of its own. *)
Definition is_ascii (c : ascii) : bool := (nat_of_ascii c <? 128)%nat.

Fixpoint ascii_only (s : string) : bool :=
  match s with
  | EmptyString => true
  | String c s' => is_ascii c && ascii_only s'
  end.

(** U+00E9 in [café], two bytes in UTF-8. *)
Definition cafe : string :=
  "caf" ++ String (ascii_of_nat 195) (String (ascii_of_nat 169) EmptyString).

(** The number that a string of digits writes. *)
Fixpoint digits_value (s : string) : nat :=
  match s with
  | EmptyString => 0
  | String c s' =>
      (nat_of_ascii c - 48) * 10 ^ String.length s' + digits_value s'
  end.

(** The values that a [datetime] of Python has in its fields, the year
    having four digits. *)
Definition datetime_ok (t : datetime) : Prop :=
  1000 <= year t < 10 * 1000 /\
  1 <= month t <= 12 /\
  1 <= day t <= 31 /\
  hour t <= 23 /\
  minute t <= 59 /\
  second t <= 59 /\
  microsecond t < 1000 * 1000.

(** Earlier, same or later: the order of two clock readings. *)
Definition datetime_compare (a b : datetime) : comparison :=
  match Nat.compare (year a) (year b) with
  | Eq =>
  match Nat.compare (month a) (month b) with
  | Eq =>
  match Nat.compare (day a) (day b) with
  | Eq =>
  match Nat.compare (hour a) (hour b) with
  | Eq =>
  match Nat.compare (minute a) (minute b) with
  | Eq =>
  match Nat.compare (second a) (second b) with
  | Eq => Nat.compare (microsecond a) (microsecond b)
  | c => c end
  | c => c end
  | c => c end
  | c => c end
  | c => c end
  | c => c end.

(** The sum of the lengths of the contents of a store. *)
Definition content_chars (d : dict) : nat :=
  list_sum (map (fun entry => len (content entry)) (map snd d)).

(** The answer of [get_memory_info] for [n] entries of [t] characters. *)
Definition info_text (MEMORY_FILE : string) (n t : nat) : string :=
  "User Memory System Info:" ++ nl ++
  "- Entries: " ++ str_nat n ++ nl ++
  "- Total chars: " ++ str_nat t ++ nl ++
  "- Data file: " ++ MEMORY_FILE ++ nl ++
  "- Tools: save_memory, read_memory, list_memory, delete_memory" ++ nl ++
  "- Key format: memory_YYYYMMDDHHMMSS" ++ nl ++
  "- Save format: 'User is ...'" ++ nl.

(** What [list_memory] writes for the entry [e] under the key [k], as the
    [i]-th of its list, up to the blank line that follows. *)
Definition entry_block (i : nat) (k : string) (e : Entry) : string :=
  str_nat i ++ ". [" ++ k ++ "]" ++ nl ++
  "   " ++ content e ++ nl ++
  "   " ++ slice 0 10 (created_at e) ++ " " ++
  slice 11 19 (created_at e) ++
  " (" ++ str_nat (len (content e)) ++ " chars)".

(** The blocks of the keys [keys], numbered from [i] on. *)
Fixpoint numbered_blocks (d : dict) (i : nat) (keys : list string)
  : list string :=
  match keys with
  | [] => []
  | k :: rest =>
      match dict_get k d with
      | Some e => entry_block i k e :: numbered_blocks d (S i) rest
      | None => []
      end
  end.

(** Every entry of [d] was created no later than it was last updated, and
    last updated no later than the clock reading [t]. *)
Definition not_after (t : datetime) (d : dict) : Prop :=
  forall k e,
    dict_get k d = Some e ->
    String.leb (created_at e) (updated_at e) = true /\
    String.leb (updated_at e) (isoformat t) = true.

(** The clock that stamps the entries never goes back: every reading is
    one of a [datetime], and none is earlier than the one before; [prev] is
    the reading before the first call. *)
Fixpoint clock_never_back (prev : datetime) (calls : list (Env * request))
  : Prop :=
  match calls with
  | [] => True
  | (env, _) :: rest =>
      datetime_ok (entry_now env) /\
      datetime_compare prev (entry_now env) <> Gt /\
      clock_never_back (entry_now env) rest
  end.

(** Two surroundings that differ at most in what [log_operation] reads. *)
Definition same_but_log (env1 env2 : Env) : Prop :=
  key_now env1 = key_now env2 /\
  entry_now env1 = entry_now env2 /\
  file_writable env1 = file_writable env2.

(** ** More values for the examples *)

Definition t_2026 : datetime := mk_datetime 2026 3 9 8 0 0 0.
Definition env_later : Env := mk_env t_2026 t_2026 log_ok log_ok true.

(** * Properties *)

(** ** Strings *)

Lemma append_length (a b : string) :
  String.length (a ++ b) = String.length a + String.length b.
Proof. induction a as [|c a IH]; simpl; [reflexivity | now rewrite IH]. Qed.

Lemma append_assoc (a b c : string) : (a ++ b) ++ c = a ++ b ++ c.
Proof. induction a as [|x a IH]; simpl; [reflexivity | now rewrite IH]. Qed.

Lemma append_cancel_l (a b c : string) : a ++ b = a ++ c -> b = c.
Proof.
  induction a as [|x a IH]; simpl; intros H; [assumption|].
  injection H as H. now apply IH.
Qed.

Lemma append_cancel_r (a b c : string) : a ++ c = b ++ c -> a = b.
Proof.
  revert b. induction a as [|x a IH]; intros [|y b] H; simpl in H.
  - reflexivity.
  - apply (f_equal String.length) in H. simpl in H.
    rewrite append_length in H. lia.
  - apply (f_equal String.length) in H. simpl in H.
    rewrite append_length in H. lia.
  - injection H as Hx H. subst y. f_equal. now apply IH.
Qed.

(** ** Characters *)

Lemma concat_cons (x : string) (l : list string) :
  String.concat "" (x :: l) = x ++ String.concat "" l.
Proof.
  destruct l as [|y l]; cbn [String.concat].
  - clear. induction x as [|c x IH]; simpl; [reflexivity | now rewrite <- IH].
  - reflexivity.
Qed.

(** The characters of a string are not empty, and put together again they
    give the string. *)
Lemma chars_nil (s : string) : chars s = [] -> s = "".
Proof.
  destruct s as [|c s]; [reflexivity|]. cbn [chars].
  destruct (chars s) as [|x rest]; [discriminate|].
  now destruct (starts_with_continuation s).
Qed.

Lemma concat_chars (s : string) : String.concat "" (chars s) = s.
Proof.
  induction s as [|c s IH]; [reflexivity|]. cbn [chars].
  destruct (chars s) as [|x rest] eqn:E.
  - apply chars_nil in E. now subst s.
  - rewrite concat_cons in IH.
    destruct (starts_with_continuation s); rewrite !concat_cons;
      cbn [append]; now rewrite IH.
Qed.

Lemma chars_not_empty (s x : string) : In x (chars s) -> x <> "".
Proof.
  revert x. induction s as [|c s IH]; intros x; [intros []|]. cbn [chars].
  destruct (chars s) as [|y rest]; [intros [<-|[]]; discriminate|].
  destruct (starts_with_continuation s).
  - intros [<-|H]; [discriminate|]. apply IH. now right.
  - intros [<-|H]; [discriminate|]. now apply IH.
Qed.

Lemma len_le_length (s : string) : len s <= String.length s.
Proof.
  unfold len. induction s as [|c s IH]; [apply le_n|]. cbn [chars].
  destruct (chars s) as [|x rest]; [simpl; lia|].
  destruct (starts_with_continuation s); simpl in *; lia.
Qed.

Lemma is_ascii_not_continuation (c : ascii) :
  is_ascii c = true -> is_continuation c = false.
Proof.
  unfold is_ascii, is_continuation. intros H. apply Nat.ltb_lt in H.
  apply andb_false_iff. left. apply Nat.leb_gt. exact H.
Qed.

Lemma chars_ascii (s : string) :
  ascii_only s = true ->
  chars s = map (fun c => String c EmptyString) (list_ascii_of_string s).
Proof.
  induction s as [|c s IH]; [reflexivity|]. cbn [ascii_only chars].
  intros H. apply andb_prop in H. destruct H as [_ Hs].
  rewrite (IH Hs). destruct s as [|c' s']; [reflexivity|].
  cbn [ascii_only] in Hs. apply andb_prop in Hs. destruct Hs as [Hc' _].
  cbn [list_ascii_of_string map starts_with_continuation].
  now rewrite (is_ascii_not_continuation c' Hc').
Qed.

(** On ASCII the characters are the bytes. *)
Lemma len_ascii (s : string) : ascii_only s = true -> len s = String.length s.
Proof.
  intros H. unfold len. rewrite (chars_ascii s H), length_map.
  clear H. induction s as [|c s IH]; simpl; [reflexivity | now rewrite IH].
Qed.

Lemma substring_as_list (i m : nat) (s : string) :
  String.concat ""
    (firstn m (skipn i (map (fun c => String c EmptyString)
                          (list_ascii_of_string s))))
  = substring i m s.
Proof.
  revert i m. induction s as [|c s IH]; intros i m.
  - destruct i, m; reflexivity.
  - destruct i as [|i].
    + destruct m as [|m]; [reflexivity|].
      cbn [list_ascii_of_string map skipn firstn substring].
      rewrite concat_cons. cbn [append]. f_equal. apply (IH 0 m).
    + cbn [list_ascii_of_string map skipn substring]. apply IH.
Qed.

Lemma slice_ascii (i j : nat) (s : string) :
  ascii_only s = true -> slice i j s = substring i (j - i) s.
Proof.
  intros H. unfold slice. rewrite (chars_ascii s H). apply substring_as_list.
Qed.

Lemma ascii_only_append (a b : string) :
  ascii_only (a ++ b) = ascii_only a && ascii_only b.
Proof.
  induction a as [|c a IH]; simpl; [reflexivity|].
  now rewrite IH, andb_assoc.
Qed.

(** Beyond ASCII the two counts differ: four characters in five bytes, one
    character in four bytes. *)
Example len_cafe : len cafe = 4 /\ String.length cafe = 5.
Proof. split; reflexivity. Qed.

Example len_brain : len brain = 1 /\ String.length brain = 4.
Proof. split; reflexivity. Qed.

Example slice_cafe :
  slice 3 4 cafe
  = String (ascii_of_nat 195) (String (ascii_of_nat 169) EmptyString).
Proof. reflexivity. Qed.

(** ** Decimal formatting is injective *)

Lemma decode_zeros (k : nat) (s : string) (n : nat) :
  decode s = Some n -> decode (zeros k ++ s) = Some n.
Proof.
  unfold decode. intros H. induction k as [|k IH]; simpl; [assumption|].
  destruct (NilEmpty.uint_of_string (zeros k ++ s)) as [u|]; simpl in *;
    [|discriminate].
  exact IH.
Qed.

Lemma decode_fmt_0d (w n : nat) : decode (fmt_0d w n) = Some n.
Proof.
  unfold fmt_0d. apply decode_zeros. unfold decode, str_nat.
  rewrite NilEmpty.usu. simpl. now rewrite DecimalNat.Unsigned.of_to.
Qed.

Lemma fmt_0d_inj (w a b : nat) : fmt_0d w a = fmt_0d w b -> a = b.
Proof.
  intros H. apply (f_equal decode) in H.
  rewrite !decode_fmt_0d in H. now injection H.
Qed.

(** ** The dictionary *)

Lemma dict_mem_true_iff (k : string) (d : dict) :
  dict_mem k d = true <-> exists e, dict_get k d = Some e.
Proof.
  unfold dict_mem. destruct (dict_get k d) as [e|]; split.
  - intros _. now exists e.
  - reflexivity.
  - discriminate.
  - intros [e He]. discriminate.
Qed.

Lemma dict_mem_false_iff (k : string) (d : dict) :
  dict_mem k d = false <-> dict_get k d = None.
Proof.
  unfold dict_mem. destruct (dict_get k d); split; congruence.
Qed.

Lemma dict_get_In (k : string) (e : Entry) (d : dict) :
  dict_get k d = Some e -> In (k, e) d.
Proof.
  induction d as [|[k' v] d IH]; simpl; [discriminate|].
  destruct (String.eqb_spec k k') as [->|Hne]; intros H.
  - injection H as ->. now left.
  - right. now apply IH.
Qed.

Lemma dict_mem_In_keys (k : string) (d : dict) :
  dict_mem k d = true <-> In k (dict_keys d).
Proof.
  unfold dict_mem, dict_keys.
  induction d as [|[k' v] d IH]; simpl.
  - split; [discriminate | tauto].
  - destruct (String.eqb_spec k k') as [->|Hne].
    + split; auto.
    + rewrite IH. split; [now right | intros [H|H]; congruence].
Qed.

Lemma dict_get_set_same (k : string) (v : Entry) (d : dict) :
  dict_get k (dict_set k v d) = Some v.
Proof.
  induction d as [|[k' v'] d IH]; simpl.
  - now rewrite String.eqb_refl.
  - destruct (String.eqb k k') eqn:E; simpl.
    + now rewrite String.eqb_refl.
    + now rewrite E.
Qed.

Lemma dict_get_set_other (k k' : string) (v : Entry) (d : dict) :
  k' <> k -> dict_get k' (dict_set k v d) = dict_get k' d.
Proof.
  intros Hne. induction d as [|[k0 v0] d IH]; simpl.
  - destruct (String.eqb_spec k' k); congruence.
  - destruct (String.eqb_spec k k0) as [->|Hk]; simpl.
    + destruct (String.eqb_spec k' k0); congruence.
    + destruct (String.eqb_spec k' k0); congruence.
Qed.

Lemma dict_set_fresh (k : string) (v : Entry) (d : dict) :
  dict_mem k d = false -> dict_set k v d = (d ++ [(k, v)])%list.
Proof.
  rewrite dict_mem_false_iff.
  induction d as [|[k' v'] d IH]; simpl; [reflexivity|].
  destruct (String.eqb k k'); [discriminate|].
  intros H. now rewrite IH.
Qed.

Lemma dict_keys_set_present (k : string) (v : Entry) (d : dict) :
  dict_mem k d = true -> dict_keys (dict_set k v d) = dict_keys d.
Proof.
  unfold dict_mem, dict_keys.
  induction d as [|[k' v'] d IH]; simpl; [discriminate|].
  destruct (String.eqb_spec k k') as [->|Hne]; simpl; [reflexivity|].
  intros H. now rewrite IH.
Qed.

Lemma dict_get_del_same (k : string) (d : dict) :
  dict_get k (dict_del k d) = None.
Proof.
  unfold dict_del. induction d as [|[k' v'] d IH]; simpl; [reflexivity|].
  destruct (String.eqb k k') eqn:E; simpl; [assumption|].
  now rewrite E.
Qed.

Lemma dict_get_del_other (k k' : string) (d : dict) :
  k' <> k -> dict_get k' (dict_del k d) = dict_get k' d.
Proof.
  intros Hne. unfold dict_del.
  induction d as [|[k0 v0] d IH]; simpl; [reflexivity|].
  destruct (String.eqb_spec k k0) as [->|Hk]; simpl.
  - destruct (String.eqb_spec k' k0); congruence.
  - destruct (String.eqb_spec k' k0); congruence.
Qed.

(** ** Key generation *)

Lemma candidate_inj (base : string) : Injective (candidate base).
Proof.
  intros [|a] [|b] H; simpl in H.
  - reflexivity.
  - apply (f_equal String.length) in H.
    rewrite append_length in H. simpl in H. lia.
  - apply (f_equal String.length) in H.
    rewrite append_length in H. simpl in H. lia.
  - apply append_cancel_l in H. injection H as H.
    now apply fmt_0d_inj in H.
Qed.

(** A store that holds the first [N] candidates has at least [N] entries. *)
Lemma candidates_bounded (base : string) (d : dict) (N : nat) :
  (forall m, m < N -> dict_mem (candidate base m) d = true) ->
  N <= List.length d.
Proof.
  intros H.
  assert (Hlen : List.length (map (candidate base) (seq 0 N))
                 <= List.length (dict_keys d)).
  { apply NoDup_incl_length.
    - apply Injective_map_NoDup; [apply candidate_inj | apply seq_NoDup].
    - intros k Hk. apply in_map_iff in Hk. destruct Hk as [m [<- Hm]].
      apply dict_mem_In_keys. apply H. apply in_seq in Hm. lia. }
  unfold dict_keys in Hlen. now rewrite !length_map, length_seq in Hlen.
Qed.

(** The loop ends at the first candidate that is not in the store, and the
    fuel that [create_memory] gives it is enough. *)
Lemma while_key_in_store_spec (d : dict) (base : string) (fuel n : nat) :
  List.length d <= n + fuel ->
  (forall m, m < n -> dict_mem (candidate base m) d = true) ->
  exists j,
    n <= j /\
    while_key_in_store fuel d base (candidate base n) (S n)
      = Done (candidate base j) /\
    dict_mem (candidate base j) d = false /\
    (forall m, m < j -> dict_mem (candidate base m) d = true).
Proof.
  revert n. induction fuel as [|fuel IH]; intros n Hlen Hbelow.
  - simpl. destruct (dict_mem (candidate base n) d) eqn:E.
    + exfalso.
      assert (S n <= List.length d); [|lia].
      apply (candidates_bounded base). intros m Hm.
      destruct (Nat.eq_dec m n) as [->|Hne]; [assumption|].
      apply Hbelow. lia.
    + exists n. repeat split; auto.
  - simpl. destruct (dict_mem (candidate base n) d) eqn:E.
    + destruct (IH (S n)) as [j [Hj [Hrun [Hfree Hall]]]].
      * lia.
      * intros m Hm. destruct (Nat.eq_dec m n) as [->|Hne]; [assumption|].
        apply Hbelow. lia.
      * exists j. repeat split; auto. lia.
    + exists n. repeat split; auto.
Qed.

Lemma while_key_in_store_terminates (d : dict) (base : string) :
  exists j,
    while_key_in_store (List.length d) d base base 1
      = Done (candidate base j) /\
    dict_mem (candidate base j) d = false /\
    (forall m, m < j -> dict_mem (candidate base m) d = true).
Proof.
  destruct (while_key_in_store_spec d base (List.length d) 0) as [j H].
  - lia.
  - intros m Hm. lia.
  - exists j. tauto.
Qed.

(** More fuel does not change the result. *)
Lemma while_key_in_store_fuel (d : dict) (base k : string)
    (fuel fuel' counter : nat) (r : string) :
  while_key_in_store fuel d base k counter = Done r ->
  fuel <= fuel' ->
  while_key_in_store fuel' d base k counter = Done r.
Proof.
  revert fuel' k counter.
  induction fuel as [|fuel IH]; intros fuel' k counter H Hle.
  - destruct fuel'; simpl in *; destruct (dict_mem k d); congruence.
  - destruct fuel' as [|fuel']; [lia|]. simpl in *.
    destruct (dict_mem k d); [|assumption].
    apply IH; [assumption | lia].
Qed.

(** ** What each tool function does *)

Lemma log_operation_spec le op k b a ok err md st :
  log_operation le op k b a ok err md st =
  (Done tt,
   mk_state (memory_store st)
            (log_file st ++ appended le (record_of le op k b a ok err md))%list).
Proof.
  unfold log_operation, appended, record_of.
  destruct (log_writable le); [reflexivity|].
  rewrite app_nil_r. now destruct st.
Qed.

Ltac step_M :=
  cbv beta iota zeta delta
    [try_except bind ret lift get_store put_store setitem delitem
     save_memory_to_file];
  cbn [memory_store log_file fst snd negb].

Lemma create_memory_spec (env : Env) (c : string) (st : State) :
  let base := generate_auto_key (key_now env) in
  exists j,
    dict_mem (candidate base j) (memory_store st) = false /\
    (forall m, m < j -> dict_mem (candidate base m) (memory_store st) = true) /\
    create_memory env c st =
    (Done (if file_writable env
           then "Saved: '" ++ candidate base j ++ "'"
           else "Saved in memory, file write failed."),
     mk_state
       (memory_store st ++
        [(candidate base j, create_memory_entry (entry_now env) c)])%list
       (log_file st ++
        appended (log_env env) (create_record env (candidate base j) c))%list).
Proof.
  intros base.
  destruct (while_key_in_store_terminates (memory_store st) base)
    as [j [Hrun [Hfree Hall]]].
  exists j. split; [assumption|]. split; [assumption|].
  unfold create_memory. step_M. fold base. rewrite Hrun.
  rewrite log_operation_spec. step_M.
  rewrite (dict_set_fresh _ _ _ Hfree).
  unfold create_record. now destruct (file_writable env).
Qed.

Lemma update_memory_present (env : Env) (k c : string) (st : State) (e : Entry) :
  dict_get k (memory_store st) = Some e ->
  update_memory env k c st =
  (Done (if file_writable env
         then "Updated: '" ++ k ++ "'"
         else "Updated in memory, file write failed."),
   mk_state (dict_set k (updated_entry_of env e c) (memory_store st))
            (log_file st ++ appended (log_env env) (update_record env k e c))%list).
Proof.
  intros H. unfold update_memory, dict_mem, getitem. step_M. rewrite H.
  step_M. rewrite log_operation_spec. step_M.
  unfold update_record, updated_entry_of. now destruct (file_writable env).
Qed.

Lemma update_memory_absent (env : Env) (k c : string) (st : State) :
  dict_get k (memory_store st) = None ->
  update_memory env k c st =
  (Done (not_found_message k (dict_keys (memory_store st))
                           "No memory data exists."),
   mk_state (memory_store st)
            (log_file st ++
             appended (log_env env) (not_found_record (log_env env) "update" k))%list).
Proof.
  intros H. unfold update_memory, dict_mem. step_M. rewrite H.
  step_M. rewrite log_operation_spec. step_M. reflexivity.
Qed.

Lemma read_memory_present (env : Env) (k : string) (st : State) (e : Entry) :
  dict_get k (memory_store st) = Some e ->
  read_memory env k st =
  (Done (read_text k e),
   mk_state (memory_store st)
            (log_file st ++ appended (log_env env) (read_record env k e))%list).
Proof.
  intros H. unfold read_memory, dict_mem, getitem. step_M. rewrite H.
  step_M. rewrite log_operation_spec. step_M. reflexivity.
Qed.

Lemma read_memory_absent (env : Env) (k : string) (st : State) :
  dict_get k (memory_store st) = None ->
  read_memory env k st =
  (Done (not_found_message k (dict_keys (memory_store st)) "No memory data."),
   mk_state (memory_store st)
            (log_file st ++
             appended (log_env env) (not_found_record (log_env env) "read" k))%list).
Proof.
  intros H. unfold read_memory, dict_mem. step_M. rewrite H.
  step_M. rewrite log_operation_spec. step_M. reflexivity.
Qed.

Lemma delete_memory_present (env : Env) (k : string) (st : State) (e : Entry) :
  dict_get k (memory_store st) = Some e ->
  delete_memory env k st =
  (Done (if file_writable env
         then "Deleted '" ++ k ++ "'"
         else "Deleted '" ++ k ++ "', file write failed."),
   mk_state (dict_del k (memory_store st))
            (log_file st ++ appended (log_env env) (delete_record env k e))%list).
Proof.
  intros H. unfold delete_memory, dict_mem, getitem. step_M. rewrite H.
  step_M. unfold dict_mem. rewrite H. step_M.
  rewrite log_operation_spec. step_M.
  unfold delete_record. now destruct (file_writable env).
Qed.

Lemma delete_memory_absent (env : Env) (k : string) (st : State) :
  dict_get k (memory_store st) = None ->
  delete_memory env k st =
  (Done (not_found_message k (dict_keys (memory_store st)) "No memory data."),
   mk_state (memory_store st)
            (log_file st ++
             appended (log_env env) (not_found_record (log_env env) "delete" k))%list).
Proof.
  intros H. unfold delete_memory, dict_mem. step_M. rewrite H.
  step_M. rewrite log_operation_spec. step_M. reflexivity.
Qed.

(** ** Order of strings *)

Lemma ascii_compare_refl (a : ascii) : Ascii.compare a a = Eq.
Proof. unfold Ascii.compare. apply N.compare_refl. Qed.

Lemma ascii_compare_lt_trans (a b c : ascii) :
  Ascii.compare a b = Lt -> Ascii.compare b c = Lt -> Ascii.compare a c = Lt.
Proof.
  unfold Ascii.compare. rewrite !N.compare_lt_iff. apply N.lt_trans.
Qed.

Lemma string_compare_lt_trans (a b c : string) :
  String.compare a b = Lt -> String.compare b c = Lt ->
  String.compare a c = Lt.
Proof.
  revert b c. induction a as [|x a IH]; intros [|y b] [|z c]; simpl;
    try congruence.
  destruct (Ascii.compare x y) eqn:Exy; try discriminate;
    destruct (Ascii.compare y z) eqn:Eyz; try discriminate; intros Hab Hbc.
  - apply Ascii.compare_eq_iff in Exy, Eyz. subst.
    rewrite ascii_compare_refl. now apply (IH b).
  - apply Ascii.compare_eq_iff in Exy. subst. now rewrite Eyz.
  - apply Ascii.compare_eq_iff in Eyz. subst. now rewrite Exy.
  - now rewrite (ascii_compare_lt_trans _ _ _ Exy Eyz).
Qed.

Lemma string_leb_trans (a b c : string) :
  String.leb a b = true -> String.leb b c = true -> String.leb a c = true.
Proof.
  intros Hab Hbc.
  destruct (String.compare a b) eqn:Eab.
  - apply String.compare_eq_iff in Eab. subst. exact Hbc.
  - destruct (String.compare b c) eqn:Ebc.
    + apply String.compare_eq_iff in Ebc. subst. exact Hab.
    + unfold String.leb.
      now rewrite (string_compare_lt_trans _ _ _ Eab Ebc).
    + unfold String.leb in Hbc. rewrite Ebc in Hbc. discriminate.
  - unfold String.leb in Hab. rewrite Eab in Hab. discriminate.
Qed.

Lemma string_leb_refl (a : string) : String.leb a a = true.
Proof. destruct (String.leb_total a a); assumption. Qed.

Lemma string_ltb_leb (a b : string) :
  String.ltb a b = true -> String.leb a b = true.
Proof.
  unfold String.ltb, String.leb. now destruct (String.compare a b).
Qed.

Lemma string_ltb_false_leb (a b : string) :
  String.ltb a b = false -> String.leb b a = true.
Proof.
  unfold String.ltb, String.leb. rewrite (String.compare_antisym b a).
  destruct (String.compare a b); simpl; congruence.
Qed.

Lemma string_ltb_irrefl (a : string) : String.ltb a a = false.
Proof.
  unfold String.ltb.
  destruct (String.compare a a) eqn:E; try reflexivity.
  pose proof (String.compare_antisym a a) as H. rewrite E in H. discriminate.
Qed.

(** ** The stable descending sort *)

Section SortKeys.

Variable f : string -> string.

Lemma insert_desc_decorated (x : string) (l : list string) :
  insert_desc (decorated f x) (map (decorated f) l)
  = map (decorated f) (insert_key f x l).
Proof.
  induction l as [|y l IH]; simpl; [reflexivity|].
  destruct (String.ltb (f x) (f y)); simpl; [now rewrite IH | reflexivity].
Qed.

Lemma sort_desc_decorated (l : list string) :
  sort_desc (map (decorated f) l) = map (decorated f) (sort_keys f l).
Proof.
  unfold sort_desc, sort_keys.
  induction l as [|x l IH]; cbn [map fold_right]; [reflexivity|].
  rewrite IH. apply insert_desc_decorated.
Qed.

Lemma insert_key_perm (x : string) (l : list string) :
  Permutation (x :: l) (insert_key f x l).
Proof.
  induction l as [|y l IH]; simpl; [apply Permutation_refl|].
  destruct (String.ltb (f x) (f y)); [|apply Permutation_refl].
  eapply perm_trans; [apply perm_swap|]. now apply perm_skip.
Qed.

Lemma sort_keys_perm (l : list string) : Permutation l (sort_keys f l).
Proof.
  induction l as [|x l IH]; simpl; [constructor|].
  eapply perm_trans; [apply perm_skip, IH | apply insert_key_perm].
Qed.

Lemma insert_key_sorted (x : string) (l : list string) :
  StronglySorted (desc f) l -> StronglySorted (desc f) (insert_key f x l).
Proof.
  induction l as [|y l IH]; intros Hs; simpl.
  - constructor; constructor.
  - inversion Hs as [|y' l' Hl Hy]; subst.
    destruct (String.ltb (f x) (f y)) eqn:E.
    + constructor; [now apply IH|].
      apply (Permutation_Forall (insert_key_perm x l)).
      constructor; [|assumption].
      unfold desc. now apply string_ltb_leb.
    + apply string_ltb_false_leb in E.
      constructor; [assumption|].
      constructor; [exact E|].
      eapply Forall_impl; [|exact Hy].
      intros z Hz. unfold desc in *. eapply string_leb_trans; eassumption.
Qed.

Lemma sort_keys_sorted (l : list string) : StronglySorted (desc f) (sort_keys f l).
Proof.
  induction l as [|x l IH]; simpl; [constructor|].
  now apply insert_key_sorted.
Qed.

(** Elements with one and the same sort key keep their order. *)
Lemma insert_key_stable (v x : string) (l : list string) :
  filter (fun k => String.eqb (f k) v) (insert_key f x l)
  = filter (fun k => String.eqb (f k) v) (x :: l).
Proof.
  induction l as [|y l IH]; [reflexivity|].
  cbn [insert_key]. destruct (String.ltb (f x) (f y)) eqn:E; [|reflexivity].
  cbn [filter] in *. rewrite IH.
  destruct (String.eqb_spec (f x) v) as [Hx|Hx];
    destruct (String.eqb_spec (f y) v) as [Hy|Hy]; try reflexivity.
  rewrite Hx, Hy, string_ltb_irrefl in E. discriminate.
Qed.

Lemma sort_keys_stable (v : string) (l : list string) :
  filter (fun k => String.eqb (f k) v) (sort_keys f l)
  = filter (fun k => String.eqb (f k) v) l.
Proof.
  induction l as [|x l IH]; [reflexivity|].
  cbn [sort_keys fold_right]. fold (sort_keys f l).
  rewrite insert_key_stable. cbn [filter]. now rewrite IH.
Qed.

End SortKeys.

(** ** [list_memory] *)

Lemma decorate_keys (d : dict) (keys : list string) :
  (forall k, In k keys -> dict_mem k d = true) ->
  decorate d keys = Done (map (decorated (created_of d)) keys).
Proof.
  induction keys as [|k keys IH]; intros H; simpl; [reflexivity|].
  assert (Hk : dict_mem k d = true) by (apply H; now left).
  unfold getitem, decorated, created_of. unfold dict_mem in Hk.
  destruct (dict_get k d) as [e|]; [|discriminate]. simpl.
  rewrite IH; [reflexivity|]. intros k' Hk'. apply H. now right.
Qed.

Lemma sorted_by_created_at_spec (d : dict) (keys : list string) :
  (forall k, In k keys -> dict_mem k d = true) ->
  sorted_by_created_at d keys = Done (sort_keys (created_of d) keys).
Proof.
  intros H. unfold sorted_by_created_at. rewrite (decorate_keys d keys H).
  simpl. rewrite sort_desc_decorated, map_map. simpl. now rewrite map_id.
Qed.

Lemma render_entries_done (d : dict) (keys : list string) :
  (forall k, In k keys -> dict_mem k d = true) ->
  forall i result, exists text, render_entries d i keys result = Done text.
Proof.
  induction keys as [|k keys IH]; intros H i result; simpl.
  - now exists result.
  - assert (Hk : dict_mem k d = true) by (apply H; now left).
    unfold getitem. unfold dict_mem in Hk.
    destruct (dict_get k d) as [e|]; [|discriminate]. simpl.
    apply IH. intros k' Hk'. apply H. now right.
Qed.

Lemma keys_in_store (d : dict) (k : string) :
  In k (dict_keys d) -> dict_mem k d = true.
Proof. apply dict_mem_In_keys. Qed.

Lemma sorted_keys_in_store (d : dict) (k : string) :
  In k (sort_keys (created_of d) (dict_keys d)) -> dict_mem k d = true.
Proof.
  intros H. apply keys_in_store.
  eapply Permutation_in; [|exact H].
  apply Permutation_sym, sort_keys_perm.
Qed.

Lemma list_memory_spec (env : Env) (st : State) :
  let d := memory_store st in
  exists msg,
    list_memory env st =
    (Done msg,
     mk_state d (log_file st ++
                 appended (log_env env) (list_record env (List.length d)))%list)
    /\ match d with
       | [] => msg = "No user info saved yet."
       | _ :: _ =>
           exists text,
             render_entries d 1 (sort_keys (created_of d) (dict_keys d))
                            (list_header (List.length (dict_keys d)))
             = Done text /\
             msg = rstrip text
       end.
Proof.
  intros d. unfold list_memory. step_M. rewrite log_operation_spec. step_M.
  fold d.
  pose proof (sorted_by_created_at_spec d (dict_keys d) (keys_in_store d))
    as Hs.
  destruct (render_entries_done d _ (sorted_keys_in_store d) 1
              (list_header (List.length (dict_keys d)))) as [text Ht].
  clearbody d. destruct d as [|p d'].
  - eexists. split; reflexivity.
  - rewrite Hs. step_M. unfold list_header in Ht. rewrite Ht.
    exists (rstrip text). split; [reflexivity|].
    exists text. split; [assumption | reflexivity].
Qed.

(** ** Creating entries *)

Lemma dict_get_app_last (k k' : string) (v : Entry) (d : dict) :
  dict_get k' (d ++ [(k, v)])%list =
  match dict_get k' d with
  | Some e => Some e
  | None => if String.eqb k' k then Some v else None
  end.
Proof.
  induction d as [|[k0 v0] d IH]; simpl; [reflexivity|].
  now destruct (String.eqb k' k0).
Qed.

(** C10.  [create_memory] always returns, and it inserts the new entry
    under a key that the store did not hold: the store afterwards is the
    store before with the new entry added at the end, so every entry that
    was there is still there unchanged and there is exactly one entry
    more. *)
Theorem create_memory_adds_one_fresh_entry
    (env : Env) (new_content : string) (st : State) :
  exists k msg,
    fst (create_memory env new_content st) = Done msg /\
    dict_get k (memory_store st) = None /\
    memory_store (snd (create_memory env new_content st))
      = (memory_store st ++
         [(k, create_memory_entry (entry_now env) new_content)])%list /\
    (forall k' e,
        dict_get k' (memory_store st) = Some e ->
        dict_get k' (memory_store (snd (create_memory env new_content st)))
          = Some e) /\
    List.length (memory_store (snd (create_memory env new_content st)))
      = S (List.length (memory_store st)).
Proof.
  destruct (create_memory_spec env new_content st) as [j [Hfree [_ Hrun]]].
  rewrite Hrun. cbn [fst snd memory_store].
  exists (candidate (generate_auto_key (key_now env)) j).
  eexists. split; [reflexivity|].
  split; [now apply dict_mem_false_iff|].
  split; [reflexivity|]. split.
  - intros k' e He. now rewrite dict_get_app_last, He.
  - rewrite length_app. simpl. lia.
Qed.

(** The message of a failed write is not a "Saved: '...'" message. *)
Lemma saved_message_inv (k k' : string) (b : bool) :
  (if b then "Saved: '" ++ k ++ "'" else "Saved in memory, file write failed.")
  = "Saved: '" ++ k' ++ "'" ->
  b = true /\ k = k'.
Proof.
  destruct b; simpl; intros H.
  - split; [reflexivity|]. injection H as H.
    now apply append_cancel_r in H.
  - discriminate.
Qed.



(** ** Colliding keys *)

Lemma zeros_length (n : nat) : String.length (zeros n) = n.
Proof. induction n as [|n IH]; simpl; [reflexivity | now rewrite IH]. Qed.

Lemma fmt_0d_min_width (w n : nat) : w <= String.length (fmt_0d w n).
Proof. unfold fmt_0d. rewrite append_length, zeros_length. lia. Qed.

Lemma fmt_0d_two_digits (n : nat) :
  n < 100 -> String.length (fmt_0d 2 n) = 2.
Proof.
  intros H.
  assert (Hall : forallb (fun m => String.length (fmt_0d 2 m) =? 2)%nat
                         (seq 0 100) = true) by (vm_compute; reflexivity).
  rewrite forallb_forall in Hall.
  apply Nat.eqb_eq. apply Hall. apply in_seq. lia.
Qed.

(** C6 (amended).  A [create_memory] call is given a key, which with the
    time-based key is then in the store.  A later call whose time-based key
    is the same, whatever calls were made in between, is given a key that
    the store does not hold at that moment.  So the two keys differ whenever
    the first one is still in the store; and whenever the time-based key is
    still in the store, the second key is the time-based key followed by
    [_] and a counter [n >= 1] written with [:02d] ([_01], [_02], ...: two
    digits while [n < 100], and never fewer), the first such key that the
    store does not hold, all the keys with a smaller counter being taken.
    When the second call follows the first at once, both provisos hold. *)
Theorem create_twice_same_second
    (env1 env2 : Env) (c1 c2 : string) (st : State) :
  generate_auto_key (key_now env1) = generate_auto_key (key_now env2) ->
  let base := generate_auto_key (key_now env1) in
  let st1 := snd (create_memory env1 c1 st) in
  exists k1,
    memory_store st1
      = (memory_store st ++
         [(k1, create_memory_entry (entry_now env1) c1)])%list /\
    dict_mem k1 (memory_store st1) = true /\
    dict_mem base (memory_store st1) = true /\
    forall between : list (Env * request),
      let st1' := run between st1 in
      let st2 := snd (create_memory env2 c2 st1') in
      exists k2,
        memory_store st2
          = (memory_store st1' ++
             [(k2, create_memory_entry (entry_now env2) c2)])%list /\
        dict_mem k2 (memory_store st1') = false /\
        (dict_mem k1 (memory_store st1') = true -> k1 <> k2) /\
        (dict_mem base (memory_store st1') = true ->
         exists n,
           1 <= n /\
           k2 = base ++ "_" ++ fmt_0d 2 n /\
           2 <= String.length (fmt_0d 2 n) /\
           (n < 100 -> String.length (fmt_0d 2 n) = 2) /\
           (forall m, 1 <= m < n ->
                      dict_mem (base ++ "_" ++ fmt_0d 2 m) (memory_store st1')
                      = true)).
Proof.
  intros Hsame base st1.
  destruct (create_memory_spec env1 c1 st) as [j1 [Hfree1 [Hall1 Hrun1]]].
  fold base in Hfree1, Hall1, Hrun1.
  assert (Hst1 : memory_store st1
                 = (memory_store st ++
                    [(candidate base j1,
                      create_memory_entry (entry_now env1) c1)])%list).
  { unfold st1. now rewrite Hrun1. }
  assert (Hk1 : dict_mem (candidate base j1) (memory_store st1) = true).
  { apply dict_mem_true_iff. rewrite Hst1, dict_get_app_last.
    apply dict_mem_false_iff in Hfree1. rewrite Hfree1, String.eqb_refl.
    now eexists. }
  assert (Hbase : dict_mem base (memory_store st1) = true).
  { destruct j1 as [|j1]; [exact Hk1|].
    assert (H0 : dict_mem (candidate base 0) (memory_store st) = true)
      by (apply Hall1; lia).
    apply dict_mem_true_iff in H0. destruct H0 as [e He].
    change (candidate base 0) with base in He.
    apply dict_mem_true_iff. exists e.
    now rewrite Hst1, dict_get_app_last, He. }
  exists (candidate base j1).
  split; [exact Hst1|]. split; [exact Hk1|]. split; [exact Hbase|].
  intros between st1' st2.
  destruct (create_memory_spec env2 c2 st1') as [j2 [Hfree2 [Hall2 Hrun2]]].
  rewrite <- Hsame in Hfree2, Hall2, Hrun2. fold base in Hfree2, Hall2, Hrun2.
  exists (candidate base j2).
  split; [unfold st2; now rewrite Hrun2|].
  split; [exact Hfree2|].
  split; [intros Hk1' Heq; rewrite Heq in Hk1'; congruence|].
  intros Hbase'.
  assert (Hj2 : 1 <= j2).
  { destruct j2 as [|j2]; [|lia].
    change (candidate base 0) with base in Hfree2. congruence. }
  exists j2.
  split; [exact Hj2|].
  split; [destruct j2; [lia | reflexivity]|].
  split; [apply fmt_0d_min_width|].
  split; [apply fmt_0d_two_digits|].
  intros m [Hm1 Hm2]. specialize (Hall2 m Hm2).
  destruct m as [|m]; [lia | exact Hall2].
Qed.

(** A note is made, a second one in the same second is made and deleted
    again, and a third one in that second gets the key of the second: it
    differs from the key of the first note, which is still there. *)
Lemma create_twice_same_second_witness :
  let st1 := snd (create_memory env_ok "User likes tea" empty_state) in
  let st1' :=
    run [(env_ok, CreateMemory "User likes jazz");
         (env_ok, DeleteMemory "memory_20250724225317_01")] st1 in
  let st2 := snd (create_memory env_ok "User likes chess" st1') in
  exists k1 k2 n,
    dict_keys (memory_store st1') = [k1] /\
    dict_keys (memory_store st2) = [k1; k2] /\
    k1 <> k2 /\
    1 <= n /\
    k2 = generate_auto_key (key_now env_ok) ++ "_" ++ fmt_0d 2 n.
Proof.
  intros st1 st1' st2.
  destruct (create_twice_same_second env_ok env_ok "User likes tea"
              "User likes chess" empty_state eq_refl)
    as (k1 & Hst1 & _ & _ & Hnext).
  destruct (Hnext [(env_ok, CreateMemory "User likes jazz");
                   (env_ok, DeleteMemory "memory_20250724225317_01")])
    as (k2 & Hst2 & _ & Hdiff & Hsuffix).
  fold st1 in Hst1, Hst2. fold st1' in Hst2. fold st2 in Hst2.
  assert (Ek1 : k1 = "memory_20250724225317").
  { apply (f_equal dict_keys) in Hst1. vm_compute in Hst1. congruence. }
  subst k1.
  destruct (Hsuffix eq_refl) as (n & Hn & Ek2 & _).
  exists "memory_20250724225317", k2, n.
  split; [reflexivity|].
  split.
  - rewrite Hst2. unfold dict_keys. rewrite map_app. reflexivity.
  - split; [exact (Hdiff eq_refl)|]. split; [exact Hn | exact Ek2].
Defined.

(** C6, as stated, fails.  When the first entry is deleted between the two
    calls, both calls are given the very same key, with no suffix. *)
Lemma create_delete_create_counterexample :
  generate_auto_key (key_now env_ok) = generate_auto_key (key_now env_ok) /\
  fst (create_memory env_ok "a" empty_state)
    = Done "Saved: 'memory_20250724225317'" /\
  fst (create_memory env_ok "b"
         (run [(env_ok, CreateMemory "a");
               (env_ok, DeleteMemory "memory_20250724225317")] empty_state))
    = Done "Saved: 'memory_20250724225317'".
Proof. vm_compute. repeat split. Qed.

(** The counter goes on past 99: with the counters up to 98 taken, two
    calls in the same second get the counters 99 and 100. *)
Example counter_goes_past_99 :
  dict_keys (memory_store
    (run [(env_ok, CreateMemory "a"); (env_ok, CreateMemory "b")]
         (mk_state crowded_store [])))
  = (dict_keys crowded_store ++
     ["memory_20250724225317_99"; "memory_20250724225317_100"])%list.
Proof. vm_compute. reflexivity. Qed.

(** ** Keys that are not in the store *)

Lemma occurs_in_append_l (k p msg : string) :
  occurs_in k msg -> occurs_in k (p ++ msg).
Proof.
  intros [pre [post ->]]. exists (p ++ pre), post.
  now rewrite append_assoc.
Qed.

Lemma append_empty_r (s : string) : s ++ "" = s.
Proof. induction s as [|c s IH]; simpl; [reflexivity | now rewrite IH]. Qed.

Lemma concat_occurs (sep k : string) (keys : list string) :
  In k keys -> occurs_in k (String.concat sep keys).
Proof.
  induction keys as [|x keys IH]; [intros []|].
  intros [->|Hin].
  - destruct keys as [|y keys]; simpl.
    + exists "", "". simpl. now rewrite append_empty_r.
    + exists "", (sep ++ String.concat sep (y :: keys)). reflexivity.
  - destruct keys as [|y keys]; [destruct Hin|].
    change (String.concat sep (x :: y :: keys))
      with (x ++ sep ++ String.concat sep (y :: keys)).
    apply occurs_in_append_l, occurs_in_append_l. now apply IH.
Qed.

Lemma not_found_message_answer (k : string) (keys : list string)
    (no_data : string) :
  not_found_answer k keys no_data (not_found_message k keys no_data).
Proof.
  unfold not_found_answer, not_found_message.
  destruct keys as [|x keys].
  - exists no_data. split; [reflexivity|].
    split; [reflexivity|]. split; [congruence | intros k' []].
  - exists ("Available: " ++ String.concat ", " (x :: keys)).
    split; [reflexivity|].
    split; [discriminate|]. split; [reflexivity|].
    intros k' Hk'. apply occurs_in_append_l. now apply concat_occurs.
Qed.

Lemma not_found_record_logged (le : LogEnv) (op k : string)
    (l : list log_entry) :
  not_found_logged le op k l (l ++ appended le (not_found_record le op k))%list.
Proof.
  exists (not_found_record le op k). repeat split.
Qed.

(** C5.  For a key that the store does not hold, [read_memory],
    [update_memory] and [delete_memory] answer with a not-found message
    that names the key and lists every key of the store (for an empty
    store it says that there is no data), leave the store as it is, and log
    the call as failed with the error "Key not found".  The keys listed are
    the keys under which the store holds an entry, each once per entry and
    in the order of the store, and every one of them is written in each of
    the three answers. *)
Theorem not_found_lists_known_keys
    (env : Env) (k new_content : string) (st : State) :
  dict_mem k (memory_store st) = false ->
  let keys := dict_keys (memory_store st) in
  (exists msg,
      fst (read_memory env k st) = Done msg /\
      not_found_answer k keys "No memory data." msg) /\
  (exists msg,
      fst (update_memory env k new_content st) = Done msg /\
      not_found_answer k keys "No memory data exists." msg) /\
  (exists msg,
      fst (delete_memory env k st) = Done msg /\
      not_found_answer k keys "No memory data." msg) /\
  memory_store (snd (read_memory env k st)) = memory_store st /\
  memory_store (snd (update_memory env k new_content st)) = memory_store st /\
  memory_store (snd (delete_memory env k st)) = memory_store st /\
  not_found_logged (log_env env) "read" k (log_file st)
    (log_file (snd (read_memory env k st))) /\
  not_found_logged (log_env env) "update" k (log_file st)
    (log_file (snd (update_memory env k new_content st))) /\
  not_found_logged (log_env env) "delete" k (log_file st)
    (log_file (snd (delete_memory env k st))) /\
  keys = map fst (memory_store st) /\
  List.length keys = List.length (memory_store st) /\
  (forall k', In k' keys <-> dict_mem k' (memory_store st) = true) /\
  (forall k',
      In k' keys <-> exists e, dict_get k' (memory_store st) = Some e) /\
  (forall k' e, In (k', e) (memory_store st) -> In k' keys) /\
  (forall k' msg,
      dict_mem k' (memory_store st) = true ->
      fst (read_memory env k st) = Done msg \/
      fst (update_memory env k new_content st) = Done msg \/
      fst (delete_memory env k st) = Done msg ->
      occurs_in k' msg) /\
  (memory_store st = [] ->
   fst (read_memory env k st)
     = Done ("Key '" ++ k ++ "' not found. No memory data.") /\
   fst (update_memory env k new_content st)
     = Done ("Key '" ++ k ++ "' not found. No memory data exists.") /\
   fst (delete_memory env k st)
     = Done ("Key '" ++ k ++ "' not found. No memory data.")).
Proof.
  intros H keys. apply dict_mem_false_iff in H.
  rewrite (read_memory_absent env k st H),
          (update_memory_absent env k new_content st H),
          (delete_memory_absent env k st H).
  cbn [fst snd memory_store log_file]. fold keys.
  assert (Hocc : forall k' no_data,
             In k' keys -> occurs_in k' (not_found_message k keys no_data)).
  { intros k' no_data Hk'.
    destruct (not_found_message_answer k keys no_data)
      as (tail & Hm & _ & _ & Htail).
    rewrite Hm.
    apply (occurs_in_append_l k' "Key '").
    apply (occurs_in_append_l k' k).
    apply (occurs_in_append_l k' "' not found. ").
    now apply Htail. }
  split; [eexists; split; [reflexivity | apply not_found_message_answer]|].
  split; [eexists; split; [reflexivity | apply not_found_message_answer]|].
  split; [eexists; split; [reflexivity | apply not_found_message_answer]|].
  split; [reflexivity|]. split; [reflexivity|]. split; [reflexivity|].
  split; [apply not_found_record_logged|].
  split; [apply not_found_record_logged|].
  split; [apply not_found_record_logged|].
  split; [reflexivity|].
  split; [apply length_map|].
  split; [intros k'; symmetry; apply dict_mem_In_keys|].
  split.
  { intros k'. rewrite <- dict_mem_true_iff. symmetry.
    apply dict_mem_In_keys. }
  split.
  { intros k' e Hin. apply in_map_iff. exists (k', e). now split. }
  split.
  - intros k' msg Hk' Hmsg. apply dict_mem_In_keys in Hk'.
    destruct Hmsg as [E|[E|E]]; injection E as <-; now apply Hocc.
  - intros E. unfold keys. rewrite E.
    cbn [dict_keys map not_found_message].
    split; [reflexivity|]. split; reflexivity.
Qed.

(** With two notes in the store, the answer to a key that is not there
    names the two keys. *)
Lemma not_found_lists_known_keys_witness :
  fst (read_memory env_ok "memory_nonexistent" two_notes)
    = Done ("Key 'memory_nonexistent' not found. Available: " ++
            "memory_20250724225317, memory_20250724225317_01") /\
  (exists e,
      dict_get "memory_20250724225317" (memory_store two_notes) = Some e) /\
  (exists e,
      dict_get "memory_20250724225317_01" (memory_store two_notes) = Some e).
Proof.
  pose proof (not_found_lists_known_keys env_ok "memory_nonexistent" "x"
                two_notes eq_refl) as H.
  cbv zeta in H.
  destruct H as (Hread & _ & _ & _ & _ & _ & _ & _ & _ & _ & _ & _ & Hkeys & _).
  destruct Hread as (msg & Hmsg & tail & Em & _ & Htail & _).
  split.
  - rewrite Hmsg, Em. rewrite Htail by discriminate. reflexivity.
  - split.
    + apply (proj1 (Hkeys "memory_20250724225317")). vm_compute. tauto.
    + apply (proj1 (Hkeys "memory_20250724225317_01")). vm_compute. tauto.
Defined.

(** C9.  [update_memory] on a key that the store does not hold answers
    with a not-found message and leaves the store exactly as it was: no
    entry is created, none is changed. *)
Theorem update_never_creates
    (env : Env) (k new_content : string) (st : State) :
  dict_mem k (memory_store st) = false ->
  (exists tail,
      fst (update_memory env k new_content st)
        = Done ("Key '" ++ k ++ "' not found. " ++ tail)) /\
  memory_store (snd (update_memory env k new_content st)) = memory_store st /\
  dict_mem k (memory_store (snd (update_memory env k new_content st))) = false.
Proof.
  intros H. pose proof H as H'. apply dict_mem_false_iff in H'.
  rewrite (update_memory_absent env k new_content st H').
  cbn [fst snd memory_store]. split; [|split; [reflexivity | exact H]].
  destruct (not_found_message_answer k (dict_keys (memory_store st))
              "No memory data exists.") as [tail [Hmsg _]].
  exists tail. now rewrite Hmsg.
Qed.

Lemma update_never_creates_witness :
  (exists tail,
      fst (update_memory env_ok "memory_nonexistent" "x" two_notes)
        = Done ("Key '" ++ "memory_nonexistent" ++ "' not found. " ++ tail)) /\
  memory_store (snd (update_memory env_ok "memory_nonexistent" "x" two_notes))
    = memory_store two_notes /\
  dict_mem "memory_nonexistent"
    (memory_store (snd (update_memory env_ok "memory_nonexistent" "x" two_notes)))
    = false.
Proof.
  apply (update_never_creates env_ok "memory_nonexistent" "x" two_notes).
  reflexivity.
Defined.

(** ** A snapshot that cannot be written *)

Lemma saved_messages_differ (k : string) :
  "Saved: '" ++ k ++ "'" <> "Saved in memory, file write failed.".
Proof. simpl. discriminate. Qed.

Lemma updated_messages_differ (k : string) :
  "Updated: '" ++ k ++ "'" <> "Updated in memory, file write failed.".
Proof. simpl. discriminate. Qed.

Lemma deleted_messages_differ (k : string) :
  "Deleted '" ++ k ++ "'" <> "Deleted '" ++ k ++ "', file write failed.".
Proof.
  intros H. apply append_cancel_l, append_cancel_l in H. discriminate.
Qed.

(** C4.  When the snapshot cannot be written, a create, an update of an
    existing key and a delete of an existing key leave the program in the
    very state that the same call leaves when the write succeeds: the new
    or updated entry is in the store, the deleted key is not, and every
    later call behaves as after a successful write.  The answer is the
    degraded one, which differs from the answer of the successful call. *)
Theorem write_failure_keeps_mutation (env : Env) (r : request) (st : State) :
  mutates st r = true ->
  let ok := call (set_file_writable true env) r st in
  let failed := call (set_file_writable false env) r st in
  snd failed = snd ok /\
  (forall later, run later (snd failed) = run later (snd ok)) /\
  (exists m_ok m_failed,
      fst ok = Done m_ok /\ fst failed = Done m_failed /\ m_ok <> m_failed) /\
  match r with
  | CreateMemory c =>
      exists k,
        dict_get k (memory_store st) = None /\
        dict_get k (memory_store (snd failed))
          = Some (create_memory_entry (entry_now env) c) /\
        fst ok = Done ("Saved: '" ++ k ++ "'") /\
        fst failed = Done "Saved in memory, file write failed."
  | UpdateMemory k c =>
      exists e,
        dict_get k (memory_store st) = Some e /\
        dict_get k (memory_store (snd failed))
          = Some {| content := c;
                    created_at := created_at e;
                    updated_at := isoformat (entry_now env) |} /\
        fst ok = Done ("Updated: '" ++ k ++ "'") /\
        fst failed = Done "Updated in memory, file write failed."
  | DeleteMemory k =>
      dict_get k (memory_store (snd failed)) = None /\
      fst ok = Done ("Deleted '" ++ k ++ "'") /\
      fst failed = Done ("Deleted '" ++ k ++ "', file write failed.")
  | ListMemory => True
  | ReadMemory _ => True
  end.
Proof.
  intros Hm ok failed. subst ok failed.
  destruct r as [|c|k|k c|k]; cbn [mutates call] in *; try discriminate.
  - destruct (create_memory_spec (set_file_writable true env) c st)
      as [j [Hfree [Hall Hok]]].
    destruct (create_memory_spec (set_file_writable false env) c st)
      as [j' [Hfree' [Hall' Hfailed]]].
    cbn [set_file_writable key_now entry_now log_env file_writable]
      in Hfree, Hall, Hok, Hfree', Hall', Hfailed.
    assert (j' = j) as ->.
    { destruct (Nat.lt_trichotomy j' j) as [Hlt|[Heq|Hgt]]; [|assumption|].
      - rewrite (Hall j' Hlt) in Hfree'. discriminate.
      - rewrite (Hall' j Hgt) in Hfree. discriminate. }
    rewrite Hok, Hfailed. cbn [fst snd memory_store].
    split; [reflexivity|]. split; [reflexivity|]. split.
    + eexists. eexists. split; [reflexivity|]. split; [reflexivity|].
      apply saved_messages_differ.
    + exists (candidate (generate_auto_key (key_now env)) j).
      apply dict_mem_false_iff in Hfree.
      split; [exact Hfree|]. split; [|split; reflexivity].
      now rewrite dict_get_app_last, Hfree, String.eqb_refl.
  - apply dict_mem_true_iff in Hm. destruct Hm as [e He].
    rewrite (update_memory_present (set_file_writable true env) k c st e He),
      (update_memory_present (set_file_writable false env) k c st e He).
    cbn [fst snd memory_store set_file_writable file_writable].
    split; [reflexivity|]. split; [reflexivity|]. split.
    + eexists. eexists. split; [reflexivity|]. split; [reflexivity|].
      apply updated_messages_differ.
    + exists e. split; [exact He|]. split; [|split; reflexivity].
      apply dict_get_set_same.
  - apply dict_mem_true_iff in Hm. destruct Hm as [e He].
    rewrite (delete_memory_present (set_file_writable true env) k st e He),
      (delete_memory_present (set_file_writable false env) k st e He).
    cbn [fst snd memory_store set_file_writable file_writable].
    split; [reflexivity|]. split; [reflexivity|]. split.
    + eexists. eexists. split; [reflexivity|]. split; [reflexivity|].
      apply deleted_messages_differ.
    + split; [apply dict_get_del_same | split; reflexivity].
Qed.

Lemma write_failure_keeps_mutation_witness :
  let r := UpdateMemory "memory_20250724225317" "User likes coffee" in
  let ok := call (set_file_writable true env_ok) r two_notes in
  let failed := call (set_file_writable false env_ok) r two_notes in
  snd failed = snd ok /\
  fst ok = Done "Updated: 'memory_20250724225317'" /\
  fst failed = Done "Updated in memory, file write failed.".
Proof.
  intros r ok failed.
  destruct (write_failure_keeps_mutation env_ok r two_notes eq_refl)
    as [Hst [_ [_ [e [_ [_ [Hok Hfailed]]]]]]].
  split; [exact Hst|]. split; [exact Hok | exact Hfailed].
Defined.

(** ** Updating an entry *)

(** C3 (amended).  [update_memory] on a key of the store replaces the
    entry by one with the new content, the creation time of the old entry,
    and the clock reading of the call as update time; that time is not
    before the old update time whenever the clock reading is not.  When the
    log can be appended to, exactly one record is added: it carries the old
    entry as [before], the new one as [after], and the flag
    [content_changed], which is true exactly when the new content differs
    from the old one. *)
Theorem update_memory_existing
    (env : Env) (k c2 : string) (st : State) (e : Entry) :
  dict_get k (memory_store st) = Some e ->
  let st' := snd (update_memory env k c2 st) in
  exists e' r,
    dict_get k (memory_store st') = Some e' /\
    created_at e' = created_at e /\
    content e' = c2 /\
    updated_at e' = isoformat (entry_now env) /\
    (String.leb (updated_at e) (isoformat (entry_now env)) = true ->
     String.leb (updated_at e) (updated_at e') = true) /\
    log_file st'
      = (log_file st ++ if log_writable (log_env env) then [r] else [])%list /\
    operation r = "update" /\
    key r = Some k /\
    before r = Some e /\
    after r = Some e' /\
    success r = true /\
    In ("content_changed", MBool (negb (String.eqb (content e) c2)))
       (metadata r) /\
    (negb (String.eqb (content e) c2) = true <-> c2 <> content e).
Proof.
  intros He st'. subst st'.
  rewrite (update_memory_present env k c2 st e He).
  cbn [fst snd memory_store log_file].
  exists (updated_entry_of env e c2), (update_record env k e c2).
  split; [apply dict_get_set_same|].
  repeat (split; [reflexivity|]).
  split; [intros H; exact H|].
  repeat (split; [reflexivity|]).
  split; [simpl; tauto|].
  rewrite negb_true_iff, String.eqb_neq. split; congruence.
Qed.

Lemma update_memory_existing_witness :
  let st' := snd (update_memory env_ok "memory_20250724225317"
                    "User likes coffee" two_notes) in
  exists e' r,
    dict_get "memory_20250724225317" (memory_store st') = Some e' /\
    created_at e' = "2025-07-24T22:53:17.000250" /\
    content e' = "User likes coffee" /\
    updated_at e' = isoformat (entry_now env_ok) /\
    log_file st' = (log_file two_notes ++ [r])%list /\
    before r = Some (create_memory_entry t_2025 "User likes tea") /\
    after r = Some e' /\
    In ("content_changed", MBool true) (metadata r).
Proof.
  intros st'.
  destruct (update_memory_existing env_ok "memory_20250724225317"
              "User likes coffee" two_notes
              (create_memory_entry t_2025 "User likes tea") eq_refl)
    as (e' & r & H1 & H2 & H3 & H4 & _ & H6 & _ & _ & H9 & H10 & _ & H12 & _).
  exists e', r. repeat split; assumption.
Defined.

(** C3, as stated, fails on the update time.  After a note is created at
    [t_2025], an update that reads the clock at [t_2024] (the wall clock
    was set back) leaves an update time before the old one.  And an update
    whose log line cannot be appended leaves no audit record at all. *)
Lemma update_clock_counterexample :
  option_map updated_at
    (dict_get "memory_20250724225317" (memory_store two_notes))
    = Some "2025-07-24T22:53:17.000250" /\
  option_map updated_at
    (dict_get "memory_20250724225317"
       (memory_store (snd (update_memory env_clock_back
                             "memory_20250724225317" "x" two_notes))))
    = Some "2024-01-02T03:04:05" /\
  String.leb "2025-07-24T22:53:17.000250" "2024-01-02T03:04:05" = false /\
  log_file (snd (update_memory env_log_down "memory_20250724225317" "x"
                   two_notes))
    = log_file two_notes.
Proof. vm_compute. repeat split. Qed.

(** ** Listing *)

Lemma list_ascii_of_string_append (a b : string) :
  list_ascii_of_string (a ++ b)
  = (list_ascii_of_string a ++ list_ascii_of_string b)%list.
Proof. induction a as [|c a IH]; simpl; [reflexivity | now rewrite IH]. Qed.

Lemma string_of_list_ascii_app (l1 l2 : list ascii) :
  string_of_list_ascii (l1 ++ l2)%list
  = string_of_list_ascii l1 ++ string_of_list_ascii l2.
Proof. induction l1 as [|c l1 IH]; simpl; [reflexivity | now rewrite IH]. Qed.

(** [rstrip] takes the blank line after a closing parenthesis away, and
    nothing more. *)
Lemma rstrip_after_paren (s : string) :
  rstrip (s ++ ")" ++ nl ++ nl) = s ++ ")".
Proof.
  unfold rstrip. rewrite list_ascii_of_string_append, rev_app_distr.
  cbn [app append nl list_ascii_of_string rev drop_spaces].
  replace (is_space (ascii_of_nat 10)) with true by (vm_compute; reflexivity).
  replace (is_space ")"%char) with false by (vm_compute; reflexivity).
  cbn [rev]. rewrite rev_involutive, string_of_list_ascii_app.
  now rewrite string_of_list_ascii_of_string.
Qed.

Lemma entry_block_ends_with_paren (i : nat) (k : string) (e : Entry) :
  exists body, entry_block i k e = body ++ ")".
Proof.
  unfold entry_block.
  exists (str_nat i ++ ". [" ++ k ++ "]" ++ nl ++
          "   " ++ content e ++ nl ++
          "   " ++ slice 0 10 (created_at e) ++ " " ++
          slice 11 19 (created_at e) ++
          " (" ++ str_nat (len (content e)) ++ " chars").
  now rewrite !append_assoc.
Qed.

Lemma numbered_blocks_end_with_paren (d : dict) (keys : list string) (i : nat) :
  Forall (fun b => exists body, b = body ++ ")") (numbered_blocks d i keys).
Proof.
  revert i. induction keys as [|k keys IH]; intros i; simpl; [constructor|].
  destruct (dict_get k d) as [e|]; constructor.
  - apply entry_block_ends_with_paren.
  - apply IH.
Qed.

Lemma concat_ends_with_paren (sep : string) (bs : list string) :
  bs <> [] ->
  Forall (fun b => exists body, b = body ++ ")") bs ->
  exists body, String.concat sep bs = body ++ ")".
Proof.
  induction bs as [|b bs IH]; [congruence|].
  intros _ Hall. inversion Hall as [|x l [body Hb] Hrest]; subst.
  destruct bs as [|b2 bs].
  - now exists body.
  - destruct IH as [body' Hbody']; [discriminate | assumption |].
    change (String.concat sep ((body ++ ")") :: b2 :: bs))
      with ((body ++ ")") ++ sep ++ String.concat sep (b2 :: bs)).
    rewrite Hbody'. exists ((body ++ ")") ++ sep ++ body').
    now rewrite !append_assoc.
Qed.

Lemma numbered_blocks_length (d : dict) (keys : list string) (i : nat) :
  (forall k, In k keys -> dict_mem k d = true) ->
  List.length (numbered_blocks d i keys) = List.length keys.
Proof.
  revert i. induction keys as [|k keys IH]; intros i H; simpl; [reflexivity|].
  assert (Hk : dict_mem k d = true) by (apply H; now left).
  unfold dict_mem in Hk. destruct (dict_get k d); [|discriminate].
  simpl. f_equal. apply IH. intros k' Hk'. apply H. now right.
Qed.

(** What [render_entries] adds to the text: every block with the blank
    line after it. *)
Lemma render_entries_blocks (d : dict) (keys : list string) :
  (forall k, In k keys -> dict_mem k d = true) ->
  forall i result,
    render_entries d i keys result
    = Done (result ++
            fold_right (fun b acc => b ++ nl ++ nl ++ acc) ""
                       (numbered_blocks d i keys)).
Proof.
  induction keys as [|k keys IH]; intros H i result.
  - simpl. now rewrite append_empty_r.
  - assert (Hk : dict_mem k d = true) by (apply H; now left).
    cbn [render_entries numbered_blocks]. unfold getitem.
    unfold dict_mem in Hk. destruct (dict_get k d) as [e|]; [|discriminate].
    cbn [obind fold_right].
    rewrite IH by (intros k' Hk'; apply H; now right).
    f_equal. unfold entry_block. now rewrite !append_assoc.
Qed.

Lemma blocks_with_blank_lines (bs : list string) :
  bs <> [] ->
  fold_right (fun b acc => b ++ nl ++ nl ++ acc) "" bs
  = String.concat (nl ++ nl) bs ++ nl ++ nl.
Proof.
  induction bs as [|b bs IH]; [congruence|]. intros _.
  destruct bs as [|b2 bs].
  - cbn [fold_right String.concat]. now rewrite append_empty_r.
  - change (String.concat (nl ++ nl) (b :: b2 :: bs))
      with (b ++ (nl ++ nl) ++ String.concat (nl ++ nl) (b2 :: bs)).
    cbn [fold_right] in *. rewrite IH by discriminate.
    now rewrite !append_assoc.
Qed.

Lemma numbered_blocks_nth (d : dict) (keys : list string) (j i : nat)
    (k : string) :
  (forall k', In k' keys -> dict_mem k' d = true) ->
  nth_error keys i = Some k ->
  exists e,
    dict_get k d = Some e /\
    nth_error (numbered_blocks d j keys) i = Some (entry_block (i + j) k e).
Proof.
  revert j i. induction keys as [|k0 keys IH]; intros j i H Hn.
  - destruct i; discriminate.
  - assert (Hk0 : dict_mem k0 d = true) by (apply H; now left).
    apply dict_mem_true_iff in Hk0. destruct Hk0 as [e0 He0].
    cbn [numbered_blocks]. rewrite He0.
    destruct i as [|i]; cbn [nth_error] in *.
    + injection Hn as <-. exists e0. split; [exact He0 | reflexivity].
    + destruct (IH (S j) i) as [e [He Hb]];
        [intros k' Hk'; apply H; now right | exact Hn |].
      exists e. split; [exact He|].
      now rewrite Nat.add_succ_r in Hb.
Qed.

(** The answer of [list_memory], written out. *)
Lemma list_memory_text (env : Env) (st : State) :
  let d := memory_store st in
  fst (list_memory env st)
  = Done (match d with
          | [] => "No user info saved yet."
          | _ :: _ =>
              brain ++ " " ++ str_nat (List.length d) ++
              " memory entries:" ++ nl ++ nl ++
              String.concat (nl ++ nl)
                (numbered_blocks d 1
                   (sort_keys (created_of d) (dict_keys d)))
          end).
Proof.
  intros d. set (ks := sort_keys (created_of d) (dict_keys d)).
  assert (Hin : forall k, In k ks -> dict_mem k d = true)
    by apply sorted_keys_in_store.
  assert (Hlen : List.length ks = List.length d).
  { unfold ks. rewrite <- (Permutation_length (sort_keys_perm _ _)).
    unfold dict_keys. apply length_map. }
  destruct (list_memory_spec env st) as [msg [Hrun Hmsg]].
  fold d in Hrun, Hmsg. rewrite Hrun. cbn [fst].
  f_equal. destruct d as [|p d'] eqn:Ed; [exact Hmsg|].
  destruct Hmsg as [text [Htext ->]].
  fold ks in Htext. rewrite render_entries_blocks in Htext by exact Hin.
  injection Htext as <-.
  assert (Hne : numbered_blocks (p :: d') 1 ks <> []).
  { intros E. apply (f_equal (@List.length string)) in E.
    rewrite numbered_blocks_length in E by exact Hin.
    rewrite Hlen in E. discriminate. }
  rewrite blocks_with_blank_lines by exact Hne.
  destruct (concat_ends_with_paren (nl ++ nl) _ Hne
              (numbered_blocks_end_with_paren _ _ _)) as [body Hbody].
  unfold list_header, dict_keys. rewrite length_map, Hbody.
  match goal with
  | |- rstrip ?x = _ =>
      replace x
        with ((brain ++ " " ++ str_nat (List.length (p :: d')) ++
               " memory entries:" ++ nl ++ nl ++ body) ++ ")" ++ nl ++ nl)
  end.
  - rewrite rstrip_after_paren. now rewrite !append_assoc.
  - rewrite !append_assoc. reflexivity.
Qed.

(** C7.  [list_memory] always answers.  On a store with entries it goes
    through all the keys of the store, each once, in the order of their
    creation times, latest first (the times are compared as the strings
    they are stored as); keys with one and the same creation time come in
    the order in which they were inserted.  Its answer is the line with
    the number of entries and then, in that order and numbered from 1, one
    block for every entry of the store, with the key of the entry, its
    content, the date and time of its creation and the number of
    characters of its content.  On an empty store it answers that nothing
    is saved. *)
Theorem list_memory_sorted_by_created_at (env : Env) (st : State) :
  let d := memory_store st in
  exists sorted_keys,
    sorted_by_created_at d (dict_keys d) = Done sorted_keys /\
    Permutation (dict_keys d) sorted_keys /\
    StronglySorted
      (fun a b => String.leb (created_of d b) (created_of d a) = true)
      sorted_keys /\
    (forall t,
        filter (fun k => String.eqb (created_of d k) t) sorted_keys
        = filter (fun k => String.eqb (created_of d k) t) (dict_keys d)) /\
    match d with
    | [] => fst (list_memory env st) = Done "No user info saved yet."
    | _ :: _ =>
        exists text,
          render_entries d 1 sorted_keys
                         (list_header (List.length (dict_keys d)))
          = Done text /\
          fst (list_memory env st) = Done (rstrip text)
    end /\
    (forall k, In k sorted_keys <-> dict_mem k d = true) /\
    List.length sorted_keys = List.length d /\
    exists blocks,
      List.length blocks = List.length d /\
      (forall i k,
          nth_error sorted_keys i = Some k ->
          exists e,
            dict_get k d = Some e /\
            nth_error blocks i
            = Some (str_nat (S i) ++ ". [" ++ k ++ "]" ++ nl ++
                    "   " ++ content e ++ nl ++
                    "   " ++ slice 0 10 (created_at e) ++ " " ++
                    slice 11 19 (created_at e) ++
                    " (" ++ str_nat (len (content e)) ++ " chars)")) /\
      (forall k e,
          dict_get k d = Some e ->
          exists i,
            nth_error sorted_keys i = Some k /\
            nth_error blocks i
            = Some (str_nat (S i) ++ ". [" ++ k ++ "]" ++ nl ++
                    "   " ++ content e ++ nl ++
                    "   " ++ slice 0 10 (created_at e) ++ " " ++
                    slice 11 19 (created_at e) ++
                    " (" ++ str_nat (len (content e)) ++ " chars)")) /\
      fst (list_memory env st)
      = Done (match d with
              | [] => "No user info saved yet."
              | _ :: _ =>
                  brain ++ " " ++ str_nat (List.length d) ++
                  " memory entries:" ++ nl ++ nl ++
                  String.concat (nl ++ nl) blocks
              end).
Proof.
  intros d. set (ks := sort_keys (created_of d) (dict_keys d)).
  assert (Hperm : Permutation (dict_keys d) ks) by apply sort_keys_perm.
  assert (Hin : forall k, In k ks <-> dict_mem k d = true).
  { intros k. rewrite dict_mem_In_keys. split.
    - apply Permutation_in. now apply Permutation_sym.
    - now apply Permutation_in. }
  assert (Hlen : List.length ks = List.length d).
  { rewrite <- (Permutation_length Hperm). unfold dict_keys.
    apply length_map. }
  assert (Hnth : forall i k,
             nth_error ks i = Some k ->
             exists e,
               dict_get k d = Some e /\
               nth_error (numbered_blocks d 1 ks) i
               = Some (entry_block (S i) k e)).
  { intros i k Hk.
    destruct (numbered_blocks_nth d ks 1 i k (fun k' => proj1 (Hin k')) Hk)
      as [e [He Hb]].
    exists e. split; [exact He|]. now rewrite Nat.add_1_r in Hb. }
  exists ks.
  split; [apply sorted_by_created_at_spec, keys_in_store|].
  split; [exact Hperm|].
  split; [apply sort_keys_sorted|].
  split; [intros t; apply sort_keys_stable|].
  split.
  { destruct (list_memory_spec env st) as [msg [Hrun Hmsg]].
    fold d in Hrun, Hmsg. rewrite Hrun. cbn [fst]. destruct d as [|p d'].
    - now rewrite Hmsg.
    - destruct Hmsg as [text [Ht ->]]. now exists text. }
  split; [exact Hin|]. split; [exact Hlen|].
  exists (numbered_blocks d 1 ks).
  split.
  { rewrite numbered_blocks_length; [exact Hlen|].
    intros k. apply (proj1 (Hin k)). }
  split; [exact Hnth|].
  split; [|exact (list_memory_text env st)].
  intros k e He.
  assert (Hk : In k ks).
  { apply (proj2 (Hin k)). apply dict_mem_true_iff. now exists e. }
  apply In_nth_error in Hk. destruct Hk as [i Hi].
  destruct (Hnth i k Hi) as [e' [He' Hb]].
  exists i. split; [exact Hi|].
  rewrite He in He'. injection He' as <-. exact Hb.
Qed.

(** ** Every call, seen as a whole *)

(** Every call returns an answer, changes the store as [store_after] says,
    and hands exactly one record to the log, in the [try] body; the
    [except] handler never runs.  The record says "failed" exactly for a
    key that was not found. *)
Lemma call_spec (env : Env) (r : request) (st : State) :
  exists msg d' rec,
    call env r st =
      (Done msg,
       mk_state d' (log_file st ++ appended (log_env env) rec)%list) /\
    store_after env st r d' /\
    operation rec = operation_name r /\
    success rec = negb (not_found st r) /\
    error rec = (if not_found st r then Some "Key not found" else None).
Proof.
  destruct r as [|c|k|k c|k]; cbn [call not_found store_after operation_name].
  - destruct (list_memory_spec env st) as [msg [Hrun _]].
    rewrite Hrun. do 3 eexists. repeat split.
  - destruct (create_memory_spec env c st) as [j [Hfree [_ Hrun]]].
    rewrite Hrun. do 3 eexists.
    split; [reflexivity|]. split; [|repeat split].
    eexists. split; [|reflexivity]. now apply dict_mem_false_iff.
  - unfold dict_mem. destruct (dict_get k (memory_store st)) as [e|] eqn:He.
    + rewrite (read_memory_present env k st e He).
      do 3 eexists. repeat split.
    + rewrite (read_memory_absent env k st He).
      do 3 eexists. repeat split.
  - unfold dict_mem. destruct (dict_get k (memory_store st)) as [e|] eqn:He.
    + rewrite (update_memory_present env k c st e He).
      do 3 eexists. repeat split.
    + rewrite (update_memory_absent env k c st He).
      do 3 eexists. repeat split.
  - unfold dict_mem. destruct (dict_get k (memory_store st)) as [e|] eqn:He.
    + rewrite (delete_memory_present env k st e He).
      do 3 eexists. repeat split.
    + rewrite (delete_memory_absent env k st He).
      do 3 eexists. repeat split.
Qed.

(** ** Timestamps of the entries *)

Lemma created_at_kept (env : Env) (r : request) (st : State) (d' : dict) :
  store_after env st r d' ->
  forall k e e',
    dict_get k (memory_store st) = Some e ->
    dict_get k d' = Some e' ->
    created_at e' = created_at e.
Proof.
  intros Hd k e e' He He'.
  destruct r as [|c|k0|k0 c|k0]; cbn [store_after] in Hd.
  - subst d'. congruence.
  - destruct Hd as [kn [_ ->]]. rewrite dict_get_app_last, He in He'.
    congruence.
  - subst d'. congruence.
  - destruct (dict_get k0 (memory_store st)) as [e0|] eqn:E0;
      subst d'; [|congruence].
    destruct (String.eqb_spec k k0) as [->|Hne].
    + rewrite dict_get_set_same in He'. injection He' as <-.
      simpl. congruence.
    + rewrite dict_get_set_other in He' by assumption. congruence.
  - destruct (dict_get k0 (memory_store st)) as [e0|] eqn:E0;
      subst d'; [|congruence].
    destruct (String.eqb_spec k k0) as [->|Hne].
    + rewrite dict_get_del_same in He'. discriminate.
    + rewrite dict_get_del_other in He' by assumption. congruence.
Qed.

Lemma store_inv_kept (env : Env) (r : request) (st : State) (d' : dict) :
  store_after env st r d' ->
  store_inv (memory_store st) ->
  clock_ok st env r ->
  store_inv d'.
Proof.
  intros Hd Hinv Hclock k e' He'.
  destruct r as [|c|k0|k0 c|k0]; cbn [store_after clock_ok] in Hd, Hclock.
  - subst d'. eapply Hinv; eassumption.
  - destruct Hd as [kn [Hfresh ->]]. rewrite dict_get_app_last in He'.
    destruct (dict_get k (memory_store st)) as [e|] eqn:E.
    + injection He' as <-. eapply Hinv; eassumption.
    + destruct (String.eqb k kn); [|discriminate].
      injection He' as <-. apply string_leb_refl.
  - subst d'. eapply Hinv; eassumption.
  - destruct (dict_get k0 (memory_store st)) as [e0|] eqn:E0;
      subst d'; [|eapply Hinv; eassumption].
    destruct (String.eqb_spec k k0) as [->|Hne].
    + rewrite dict_get_set_same in He'. injection He' as <-. exact Hclock.
    + rewrite dict_get_set_other in He' by assumption.
      eapply Hinv; eassumption.
  - destruct (dict_get k0 (memory_store st)) as [e0|] eqn:E0;
      subst d'; [|eapply Hinv; eassumption].
    destruct (String.eqb_spec k k0) as [->|Hne].
    + rewrite dict_get_del_same in He'. discriminate.
    + rewrite dict_get_del_other in He' by assumption.
      eapply Hinv; eassumption.
Qed.

(** C8 (amended).  No call changes the creation time of an entry: a key
    that is in the store before and after a call has the same [created_at]
    on both sides.  And [created_at <= updated_at] holds of every entry
    after any sequence of calls, provided that it held at the start and
    that no update read a clock showing a time before the creation time of
    the entry it updated. *)
Theorem timestamps_invariant :
  (forall env r st k e e',
      dict_get k (memory_store st) = Some e ->
      dict_get k (memory_store (snd (call env r st))) = Some e' ->
      created_at e' = created_at e) /\
  (forall calls st,
      store_inv (memory_store st) ->
      clock_respected calls st ->
      store_inv (memory_store (run calls st))).
Proof.
  split.
  - intros env r st k e e' He He'.
    destruct (call_spec env r st) as (msg & d' & rec & Hrun & Hd & _).
    rewrite Hrun in He'. cbn [snd memory_store] in He'.
    eapply created_at_kept; eassumption.
  - induction calls as [|[env r] calls IH]; intros st Hinv Hclock.
    + exact Hinv.
    + cbn [run]. destruct Hclock as [Hnow Hrest]. apply IH; [|exact Hrest].
      destruct (call_spec env r st) as (msg & d' & rec & Hrun & Hd & _).
      rewrite Hrun. cbn [snd memory_store].
      eapply store_inv_kept; eassumption.
Qed.

Lemma timestamps_invariant_witness :
  store_inv
    (memory_store
       (run [(env_ok, CreateMemory "User likes tea");
             (env_ok, UpdateMemory "memory_20250724225317"
                                   "User likes coffee")]
            empty_state)).
Proof.
  apply (proj2 timestamps_invariant).
  - intros k e H. discriminate H.
  - vm_compute. repeat split.
Defined.

(** C8, as stated, fails: after a note is created at [t_2025], an update
    that reads the clock at [t_2024] leaves an entry whose update time is
    before its creation time. *)
Lemma clock_set_back_counterexample :
  dict_get "memory_20250724225317"
    (memory_store
       (run [(env_ok, CreateMemory "a");
             (env_clock_back, UpdateMemory "memory_20250724225317" "b")]
            empty_state))
  = Some {| content := "b";
            created_at := "2025-07-24T22:53:17.000250";
            updated_at := "2024-01-02T03:04:05" |} /\
  String.leb "2025-07-24T22:53:17.000250" "2024-01-02T03:04:05" = false.
Proof. vm_compute. split; reflexivity. Qed.

(** ** The audit log *)

Lemma run_app_log_length (calls : list (Env * request)) (st : State) :
  (forall env r, In (env, r) calls -> log_writable (log_env env) = true) ->
  List.length (log_file (run calls st))
  = List.length (log_file st) + List.length calls.
Proof.
  revert st. induction calls as [|[env r] calls IH]; intros st Hw.
  - simpl. lia.
  - cbn [run]. rewrite IH by (intros env' r' H; apply (Hw env' r'); now right).
    destruct (call_spec env r st) as (msg & d' & rec & Hrun & _).
    rewrite Hrun. cbn [snd log_file]. unfold appended.
    rewrite (Hw env r) by now left.
    rewrite length_app. simpl. lia.
Qed.

(** C1 (amended).  Every call returns an answer and hands exactly one
    record to the log, which is appended unless the log cannot be written;
    so after [N] calls whose log lines could all be appended the log has
    [N] more records.  The record says [success = false], with the error
    text "Key not found", exactly when the call was a read, update or
    delete of a key that the store does not hold.  In every other case,
    and so also when the snapshot could not be written, it says
    [success = true] and has no error text. *)
Theorem one_audit_record_per_call :
  (forall env r st,
      exists msg rec,
        fst (call env r st) = Done msg /\
        log_file (snd (call env r st))
          = (log_file st ++
             if log_writable (log_env env) then [rec] else [])%list /\
        operation rec = operation_name r /\
        success rec = negb (not_found st r) /\
        error rec = (if not_found st r then Some "Key not found" else None)) /\
  (forall calls st,
      (forall env r, In (env, r) calls -> log_writable (log_env env) = true) ->
      List.length (log_file (run calls st))
      = List.length (log_file st) + List.length calls).
Proof.
  split; [|apply run_app_log_length].
  intros env r st.
  destruct (call_spec env r st) as (msg & d' & rec & Hrun & _ & Hop & Hs & He).
  exists msg, rec. rewrite Hrun. cbn [fst snd log_file].
  repeat split; assumption.
Qed.

Lemma one_audit_record_per_call_witness :
  List.length
    (log_file
       (run [(env_ok, CreateMemory "User likes tea");
             (env_disk_full, CreateMemory "User likes jazz");
             (env_ok, ReadMemory "memory_nonexistent");
             (env_ok, ListMemory)]
            empty_state))
  = List.length (log_file empty_state) + 4.
Proof.
  apply (proj2 one_audit_record_per_call
           [(env_ok, CreateMemory "User likes tea");
            (env_disk_full, CreateMemory "User likes jazz");
            (env_ok, ReadMemory "memory_nonexistent");
            (env_ok, ListMemory)]).
  intros env r [H|[H|[H|[H|[]]]]]; injection H as <- _; reflexivity.
Defined.

(** C1, as stated, fails.  A create whose snapshot write fails answers with
    the degraded message, and its only record says [success = true] with no
    error text.  And calls whose log lines cannot be appended leave no
    record at all. *)
Lemma swallowed_write_failure_counterexample :
  fst (create_memory env_disk_full "a" empty_state)
    = Done "Saved in memory, file write failed." /\
  map (fun r => (operation r, success r, error r))
      (log_file (snd (create_memory env_disk_full "a" empty_state)))
    = [("create", true, None)] /\
  List.length
    (log_file (run [(env_log_down, CreateMemory "a");
                    (env_log_down, ReadMemory "memory_nonexistent")]
                   empty_state))
    = 0.
Proof. vm_compute. repeat split. Qed.

(** ** The store stays a dictionary *)

Lemma call_returns (env : Env) (r : request) (st : State) :
  exists msg, fst (call env r st) = Done msg.
Proof.
  destruct (call_spec env r st) as (msg & d' & rec & Hrun & _).
  exists msg. now rewrite Hrun.
Qed.

Lemma dict_keys_del_unique (k : string) (d : dict) :
  NoDup (dict_keys d) -> NoDup (dict_keys (dict_del k d)).
Proof.
  unfold dict_keys, dict_del.
  induction d as [|[k' v'] d IH]; simpl; intros H; [constructor|].
  inversion H as [|x l Hnotin Hrest]; subst.
  destruct (negb (String.eqb k k')); simpl; [|now apply IH].
  constructor; [|now apply IH].
  intros Hin. apply Hnotin.
  apply in_map_iff in Hin. destruct Hin as [[k0 v0] [Hk0 Hin]].
  apply filter_In in Hin. destruct Hin as [Hin _].
  apply in_map_iff. now exists (k0, v0).
Qed.

(** No call makes a key occur twice in the store. *)
Lemma store_keys_unique (env : Env) (r : request) (st : State) :
  NoDup (dict_keys (memory_store st)) ->
  NoDup (dict_keys (memory_store (snd (call env r st)))).
Proof.
  intros H.
  destruct (call_spec env r st) as (msg & d' & rec & Hrun & Hd & _).
  rewrite Hrun. cbn [snd memory_store].
  destruct r as [|c|k|k c|k]; cbn [store_after] in Hd.
  - now subst d'.
  - destruct Hd as [kn [Hfresh ->]].
    unfold dict_keys. rewrite map_app. simpl.
    apply (Permutation_NoDup (Permutation_cons_append _ kn)).
    constructor; [|exact H].
    intros Hin. apply dict_mem_In_keys, dict_mem_true_iff in Hin.
    destruct Hin as [e He]. congruence.
  - now subst d'.
  - destruct (dict_get k (memory_store st)) as [e|] eqn:He; subst d';
      [|exact H].
    rewrite dict_keys_set_present; [exact H|].
    apply dict_mem_true_iff. now exists e.
  - destruct (dict_get k (memory_store st)) as [e|] eqn:He; subst d';
      [|exact H].
    now apply dict_keys_del_unique.
Qed.

(** ** The definitions at work *)

Example create_on_empty_store :
  create_memory env_ok "User likes tea" empty_state
  = (Done "Saved: 'memory_20250724225317'",
     mk_state
       [("memory_20250724225317",
         {| content := "User likes tea";
            created_at := "2025-07-24T22:53:17.000250";
            updated_at := "2025-07-24T22:53:17.000250" |})]
       [create_record env_ok "memory_20250724225317" "User likes tea"]).
Proof. reflexivity. Qed.

Example list_order_of_three_notes :
  sorted_by_created_at (memory_store three_notes)
                       (dict_keys (memory_store three_notes))
  = Done ["memory_20250724225317"; "memory_20250724225317_01";
          "memory_20240102030405"].
Proof. reflexivity. Qed.

Example read_missing_key :
  fst (read_memory env_ok "memory_nonexistent" two_notes)
  = Done ("Key 'memory_nonexistent' not found. Available: " ++
          "memory_20250724225317, memory_20250724225317_01").
Proof. reflexivity. Qed.

Example read_on_empty_store :
  fst (read_memory env_ok "memory_nonexistent" empty_state)
  = Done "Key 'memory_nonexistent' not found. No memory data.".
Proof. reflexivity. Qed.

Example delete_then_read :
  fst (read_memory env_ok "memory_20250724225317"
         (snd (delete_memory env_ok "memory_20250724225317" two_notes)))
  = Done ("Key 'memory_20250724225317' not found. Available: " ++
          "memory_20250724225317_01").
Proof. reflexivity. Qed.

(** * Further properties of the code

    What follows covers the tool functions beyond the statements above, the
    helpers [generate_auto_key], [create_memory_entry] and [log_operation],
    and the info resource.  Two parts of the program stay outside:
    [load_memory_from_file] and the text that [save_memory_to_file] writes
    both need the file system and the JSON form of the snapshot. *)

(** ** Deleting and updating, entry by entry *)

Lemma dict_del_absent (k : string) (d : dict) :
  dict_get k d = None -> dict_del k d = d.
Proof.
  unfold dict_del. induction d as [|[k' v'] d IH]; simpl; [reflexivity|].
  destruct (String.eqb k k'); [discriminate|].
  intros H. simpl. now rewrite IH.
Qed.

Lemma dict_del_app_last (k : string) (v : Entry) (d : dict) :
  dict_get k d = None -> dict_del k (d ++ [(k, v)])%list = d.
Proof.
  intros H. unfold dict_del. rewrite filter_app. simpl.
  rewrite String.eqb_refl. simpl. rewrite app_nil_r.
  now apply dict_del_absent.
Qed.

Lemma dict_keys_del (k : string) (d : dict) :
  dict_keys (dict_del k d)
  = filter (fun k' => negb (String.eqb k k')) (dict_keys d).
Proof.
  unfold dict_keys, dict_del.
  induction d as [|[k' v'] d IH]; simpl; [reflexivity|].
  destruct (String.eqb k k'); simpl; now rewrite IH.
Qed.

Lemma dict_get_none_not_in (k : string) (d : dict) :
  dict_get k d = None <-> ~ In k (dict_keys d).
Proof.
  rewrite <- dict_mem_In_keys, <- dict_mem_false_iff.
  destruct (dict_mem k d); split; congruence.
Qed.

Lemma dict_del_length (k : string) (e : Entry) (d : dict) :
  NoDup (dict_keys d) ->
  dict_get k d = Some e ->
  S (List.length (dict_del k d)) = List.length d.
Proof.
  induction d as [|[k' v'] d IH]; simpl; [discriminate|].
  intros Hnd Hget. inversion Hnd as [|x l Hnotin Hrest]; subst.
  unfold dict_del. simpl.
  destruct (String.eqb_spec k k') as [->|Hne]; simpl.
  - fold (dict_del k' d). rewrite dict_del_absent; [reflexivity|].
    now apply dict_get_none_not_in.
  - fold (dict_del k d). f_equal. now apply IH.
Qed.

Lemma dict_set_length (k : string) (v : Entry) (d : dict) :
  dict_mem k d = true -> List.length (dict_set k v d) = List.length d.
Proof.
  intros H.
  pose proof (dict_keys_set_present k v d H) as Hk.
  apply (f_equal (@List.length string)) in Hk.
  unfold dict_keys in Hk. now rewrite !length_map in Hk.
Qed.

(** X1.  After [delete_memory] has removed a key, the key is not in the
    store any more, whatever became of the snapshot write: [list_memory]
    does not go through it, and a following [read_memory] and a second
    [delete_memory] on it both answer that the key was not found. *)
Theorem deleted_key_is_gone (env env' : Env) (k : string) (st : State) :
  dict_mem k (memory_store st) = true ->
  let st' := snd (delete_memory env k st) in
  dict_mem k (memory_store st') = false /\
  ~ In k (dict_keys (memory_store st')) /\
  (forall sorted_keys,
      sorted_by_created_at (memory_store st') (dict_keys (memory_store st'))
        = Done sorted_keys ->
      ~ In k sorted_keys) /\
  (exists msg,
      fst (read_memory env' k st') = Done msg /\
      not_found_answer k (dict_keys (memory_store st')) "No memory data." msg) /\
  (exists msg,
      fst (delete_memory env' k st') = Done msg /\
      not_found_answer k (dict_keys (memory_store st')) "No memory data." msg).
Proof.
  intros H st'. apply dict_mem_true_iff in H. destruct H as [e He].
  assert (Hgone : dict_get k (memory_store st') = None).
  { subst st'. rewrite (delete_memory_present env k st e He).
    cbn [snd memory_store]. apply dict_get_del_same. }
  split; [now apply dict_mem_false_iff|].
  split; [now apply dict_get_none_not_in|].
  split.
  { intros ks Hks Hin.
    rewrite sorted_by_created_at_spec in Hks by apply keys_in_store.
    injection Hks as <-.
    apply (proj1 (dict_get_none_not_in k (memory_store st')) Hgone).
    eapply Permutation_in; [|exact Hin].
    apply Permutation_sym, sort_keys_perm. }
  rewrite (read_memory_absent env' k st' Hgone),
          (delete_memory_absent env' k st' Hgone).
  cbn [fst]. split; eexists; (split; [reflexivity|]);
    apply not_found_message_answer.
Qed.

Lemma deleted_key_is_gone_witness :
  dict_mem "memory_20250724225317"
    (memory_store (snd (delete_memory env_disk_full "memory_20250724225317"
                          two_notes)))
  = false.
Proof.
  apply (proj1 (deleted_key_is_gone env_disk_full env_ok
                  "memory_20250724225317" two_notes eq_refl)).
Defined.

(** X2.  [delete_memory] on a key of the store removes that entry and no
    other: the remaining keys stand in the order they had, every other key
    holds the entry it held, and the store has exactly one entry less. *)
Theorem delete_removes_only_that_key
    (env : Env) (k : string) (st : State) (e : Entry) :
  dict_get k (memory_store st) = Some e ->
  NoDup (dict_keys (memory_store st)) ->
  let d := memory_store st in
  let d' := memory_store (snd (delete_memory env k st)) in
  dict_keys d' = filter (fun k' => negb (String.eqb k k')) (dict_keys d) /\
  S (List.length d') = List.length d /\
  dict_get k d' = None /\
  (forall k', k' <> k -> dict_get k' d' = dict_get k' d).
Proof.
  intros He Hnd d d'. subst d d'.
  rewrite (delete_memory_present env k st e He). cbn [snd memory_store].
  split; [apply dict_keys_del|].
  split; [now apply (dict_del_length k e)|].
  split; [apply dict_get_del_same|].
  intros k' Hne. now apply dict_get_del_other.
Qed.

Lemma delete_removes_only_that_key_witness :
  dict_keys (memory_store
               (snd (delete_memory env_ok "memory_20250724225317" two_notes)))
  = filter (fun k' => negb (String.eqb "memory_20250724225317" k'))
           (dict_keys (memory_store two_notes)).
Proof.
  apply (proj1 (delete_removes_only_that_key env_ok "memory_20250724225317"
                  two_notes (create_memory_entry t_2025 "User likes tea")
                  eq_refl
                  ltac:(vm_compute; repeat constructor; simpl;
                        intuition discriminate))).
Defined.

(** X3.  [update_memory] on a key of the store changes the entry under
    that key and nothing else: the keys and their order stay, every other
    key holds the entry it held, and the updated key holds the new content
    with the old creation time. *)
Theorem update_touches_only_that_key
    (env : Env) (k new_content : string) (st : State) (e : Entry) :
  dict_get k (memory_store st) = Some e ->
  let d := memory_store st in
  let d' := memory_store (snd (update_memory env k new_content st)) in
  dict_keys d' = dict_keys d /\
  List.length d' = List.length d /\
  dict_get k d'
    = Some {| content := new_content;
              created_at := created_at e;
              updated_at := isoformat (entry_now env) |} /\
  (forall k', k' <> k -> dict_get k' d' = dict_get k' d).
Proof.
  intros He d d'. subst d d'.
  rewrite (update_memory_present env k new_content st e He).
  cbn [snd memory_store].
  assert (Hm : dict_mem k (memory_store st) = true)
    by (apply dict_mem_true_iff; now exists e).
  split; [now apply dict_keys_set_present|].
  split; [now apply dict_set_length|].
  split; [apply dict_get_set_same|].
  intros k' Hne. now apply dict_get_set_other.
Qed.

Lemma update_touches_only_that_key_witness :
  dict_keys (memory_store
               (snd (update_memory env_ok "memory_20250724225317"
                       "User likes coffee" two_notes)))
  = dict_keys (memory_store two_notes).
Proof.
  apply (proj1 (update_touches_only_that_key env_ok "memory_20250724225317"
                  "User likes coffee" two_notes
                  (create_memory_entry t_2025 "User likes tea") eq_refl)).
Defined.

(** X4.  [read_memory] after [update_memory] on a key of the store shows
    the new content and its number of characters, the creation time the entry had before
    the update, and the clock reading of the update as update time. *)
Theorem read_after_update
    (env env' : Env) (k new_content : string) (st : State) (e : Entry) :
  dict_get k (memory_store st) = Some e ->
  fst (read_memory env' k (snd (update_memory env k new_content st)))
  = Done ("Key: '" ++ k ++ "'" ++ nl ++
          new_content ++ nl ++
          "--- Metadata ---" ++ nl ++
          "Created: " ++ created_at e ++ nl ++
          "Updated: " ++ isoformat (entry_now env) ++ nl ++
          "Chars: " ++ str_nat (len new_content)).
Proof.
  intros He. rewrite (update_memory_present env k new_content st e He).
  cbn [snd]. erewrite read_memory_present; cycle 1.
  - cbn [memory_store]. apply dict_get_set_same.
  - reflexivity.
Qed.

Lemma read_after_update_witness :
  fst (read_memory env_ok "memory_20250724225317"
         (snd (update_memory env_later "memory_20250724225317"
                 cafe two_notes)))
  = Done ("Key: '" ++ "memory_20250724225317" ++ "'" ++ nl ++
          cafe ++ nl ++
          "--- Metadata ---" ++ nl ++
          "Created: " ++ "2025-07-24T22:53:17.000250" ++ nl ++
          "Updated: " ++ "2026-03-09T08:00:00" ++ nl ++
          "Chars: " ++ "4").
Proof.
  apply (read_after_update env_later env_ok "memory_20250724225317"
           cafe two_notes
           (create_memory_entry t_2025 "User likes tea") eq_refl).
Defined.

(** X5.  Deleting the key that [create_memory] has just returned gives
    back the store as it was before the create: the same entries under the
    same keys in the same order. *)
Theorem delete_after_create_restores_store
    (env env' : Env) (c k : string) (st : State) :
  fst (create_memory env c st) = Done ("Saved: '" ++ k ++ "'") ->
  memory_store (snd (delete_memory env' k (snd (create_memory env c st))))
  = memory_store st /\
  fst (delete_memory env' k (snd (create_memory env c st)))
  = Done (if file_writable env'
          then "Deleted '" ++ k ++ "'"
          else "Deleted '" ++ k ++ "', file write failed.").
Proof.
  destruct (create_memory_spec env c st) as [j [Hfree [_ Hrun]]].
  rewrite Hrun. cbn [fst snd]. intros H.
  injection H as H. apply saved_message_inv in H. destruct H as [_ <-].
  apply dict_mem_false_iff in Hfree.
  erewrite delete_memory_present; cycle 1.
  - cbn [memory_store].
    now rewrite dict_get_app_last, Hfree, String.eqb_refl.
  - cbn [fst snd memory_store]. split; [|reflexivity].
    now apply dict_del_app_last.
Qed.

Lemma delete_after_create_restores_store_witness :
  memory_store
    (snd (delete_memory env_ok "memory_20250724225317_02"
            (snd (create_memory env_ok "User likes chess" two_notes))))
  = memory_store two_notes.
Proof.
  apply (proj1 (delete_after_create_restores_store env_ok env_ok
                  "User likes chess" "memory_20250724225317_02" two_notes
                  eq_refl)).
Defined.

(** X6.  [read_memory] and [list_memory] are lookups: they never change
    the store, whether the key is found or not, and neither their answer
    nor the state they leave depends on whether the snapshot file can be
    written. *)
Theorem lookups_change_nothing (env : Env) (k : string) (st : State) (b : bool) :
  memory_store (snd (read_memory env k st)) = memory_store st /\
  memory_store (snd (list_memory env st)) = memory_store st /\
  read_memory (set_file_writable b env) k st = read_memory env k st /\
  list_memory (set_file_writable b env) st = list_memory env st.
Proof.
  split; [|split; [|split; reflexivity]].
  - destruct (call_spec env (ReadMemory k) st)
      as (msg & d' & rec & Hrun & Hd & _).
    cbn [call store_after] in Hrun, Hd. rewrite Hrun. now subst d'.
  - destruct (call_spec env ListMemory st)
      as (msg & d' & rec & Hrun & Hd & _).
    cbn [call store_after] in Hrun, Hd. rewrite Hrun. now subst d'.
Qed.

(** ** The audit log over a run *)

Lemma call_log_grows (env : Env) (r : request) (st : State) :
  exists added,
    log_file (snd (call env r st)) = (log_file st ++ added)%list /\
    List.length added <= 1 /\
    Forall (fun rec => operation rec = operation_name r) added.
Proof.
  destruct (call_spec env r st) as (msg & d' & rec & Hrun & _ & Hop & _).
  rewrite Hrun. cbn [snd log_file].
  exists (appended (log_env env) rec). split; [reflexivity|].
  unfold appended. destruct (log_writable (log_env env)); simpl.
  - split; [lia|]. now constructor.
  - split; [lia|]. constructor.
Qed.

Lemma operation_name_known (r : request) :
  In (operation_name r) ["list"; "create"; "read"; "update"; "delete"].
Proof. destruct r; simpl; tauto. Qed.

(** X7.  The audit log only grows.  Whatever calls are served, in whatever
    surroundings, the records that were in the log stay where they were,
    unchanged; at most one record per call is added behind them, and each
    added record names one of the five operations. *)
Theorem audit_log_only_grows (calls : list (Env * request)) (st : State) :
  exists added,
    log_file (run calls st) = (log_file st ++ added)%list /\
    List.length added <= List.length calls /\
    Forall (fun rec =>
              In (operation rec) ["list"; "create"; "read"; "update"; "delete"])
           added.
Proof.
  revert st. induction calls as [|[env r] calls IH]; intros st.
  - exists []. cbn [run]. rewrite app_nil_r. repeat split; [simpl; lia|].
    constructor.
  - cbn [run]. destruct (IH (snd (call env r st))) as (added & Hlog & Hlen & Hops).
    destruct (call_log_grows env r st) as (first & Hfirst & Hone & Hop).
    exists (first ++ added)%list. rewrite Hlog, Hfirst, app_assoc.
    split; [reflexivity|]. split.
    + rewrite length_app. simpl. lia.
    + apply Forall_app. split; [|exact Hops].
      eapply Forall_impl; [|exact Hop].
      intros rec ->. apply operation_name_known.
Qed.



(** ** The key that [create_memory] chooses *)

(** X9.  [create_memory] stores the new entry under the first key, among
    the time-based key and the same key with the counters 1, 2, 3, ...,
    that the store does not hold.  The counter never gets greater than the
    number of entries in the store, and when the store does not hold the
    time-based key, the entry is stored under that very key, with no
    suffix. *)
Theorem create_memory_key_choice (env : Env) (c : string) (st : State) :
  let base := generate_auto_key (key_now env) in
  let d := memory_store st in
  exists n,
    memory_store (snd (create_memory env c st))
      = (d ++ [(candidate base n, create_memory_entry (entry_now env) c)])%list /\
    n <= List.length d /\
    dict_mem (candidate base n) d = false /\
    (forall m, m < n -> dict_mem (candidate base m) d = true) /\
    (dict_mem base d = false -> candidate base n = base) /\
    (d = [] ->
     fst (create_memory env c st)
     = Done (if file_writable env
             then "Saved: '" ++ base ++ "'"
             else "Saved in memory, file write failed.")).
Proof.
  intros base d.
  destruct (create_memory_spec env c st) as [n [Hfree [Hall Hrun]]].
  fold base in Hfree, Hall, Hrun. fold d in Hfree, Hall, Hrun.
  assert (Hn : n <= List.length d)
    by (apply (candidates_bounded base); exact Hall).
  exists n. rewrite Hrun. cbn [fst snd memory_store].
  split; [reflexivity|]. split; [exact Hn|].
  split; [exact Hfree|]. split; [exact Hall|]. split.
  - intros Hbase. destruct n as [|n]; [reflexivity|].
    change base with (candidate base 0) in Hbase.
    rewrite (Hall 0) in Hbase by lia. discriminate.
  - intros Hd. rewrite Hd in Hn. simpl in Hn.
    assert (n = 0) as -> by lia. reflexivity.
Qed.

(** ** A new note in the list *)

Lemma insert_key_ext (f g : string -> string) (x : string) (l : list string) :
  f x = g x -> (forall y, In y l -> f y = g y) ->
  insert_key f x l = insert_key g x l.
Proof.
  intros Hx. induction l as [|y l IH]; intros Hl; simpl; [reflexivity|].
  rewrite Hx, (Hl y) by now left.
  destruct (String.ltb (g x) (g y)); [|reflexivity].
  f_equal. apply IH. intros z Hz. apply Hl. now right.
Qed.

Lemma sort_keys_ext (f g : string -> string) (l : list string) :
  (forall y, In y l -> f y = g y) -> sort_keys f l = sort_keys g l.
Proof.
  induction l as [|x l IH]; intros Hl; [reflexivity|].
  cbn [sort_keys fold_right]. fold (sort_keys f l). fold (sort_keys g l).
  rewrite IH by (intros y Hy; apply Hl; now right).
  apply insert_key_ext; [apply Hl; now left|].
  intros y Hy. apply Hl. right.
  eapply Permutation_in; [|exact Hy].
  apply Permutation_sym, sort_keys_perm.
Qed.

Lemma sort_keys_app_greatest (f : string -> string) (k : string)
    (l : list string) :
  (forall x, In x l -> String.ltb (f x) (f k) = true) ->
  sort_keys f (l ++ [k])%list = k :: sort_keys f l.
Proof.
  induction l as [|x l IH]; intros Hl; [reflexivity|].
  cbn [app sort_keys fold_right].
  fold (sort_keys f (l ++ [k])%list). fold (sort_keys f l).
  rewrite IH by (intros y Hy; apply Hl; now right).
  cbn [insert_key]. now rewrite (Hl x) by now left.
Qed.

(** X10.  A note created with a clock reading later than the creation time
    of every note in the store, the times compared as the strings they are
    stored as, comes first in the order in which [list_memory] goes through
    the store, and the notes that were there follow in the order they had. *)
Theorem new_note_is_listed_first (env : Env) (c : string) (st : State) :
  forallb (fun kv => String.ltb (created_at (snd kv))
                                (isoformat (entry_now env)))
          (memory_store st) = true ->
  let d := memory_store st in
  let d' := memory_store (snd (create_memory env c st)) in
  exists k older,
    d' = (d ++ [(k, create_memory_entry (entry_now env) c)])%list /\
    sorted_by_created_at d (dict_keys d) = Done older /\
    sorted_by_created_at d' (dict_keys d') = Done (k :: older).
Proof.
  intros Hlater d d'. subst d'.
  destruct (create_memory_spec env c st) as [j [Hfree [_ Hrun]]].
  rewrite Hrun. cbn [snd memory_store]. fold d. fold d in Hfree.
  set (k := candidate (generate_auto_key (key_now env)) j) in *.
  set (e := create_memory_entry (entry_now env) c).
  exists k, (sort_keys (created_of d) (dict_keys d)).
  split; [reflexivity|].
  split; [apply sorted_by_created_at_spec, keys_in_store|].
  rewrite sorted_by_created_at_spec by apply keys_in_store.
  f_equal. apply dict_mem_false_iff in Hfree.
  assert (Hold : forall x, In x (dict_keys d) ->
                           created_of (d ++ [(k, e)])%list x = created_of d x).
  { intros x Hx. unfold created_of. rewrite dict_get_app_last.
    apply dict_mem_In_keys, dict_mem_true_iff in Hx.
    destruct Hx as [ex Hex]. now rewrite Hex. }
  assert (Hnew : created_of (d ++ [(k, e)])%list k = isoformat (entry_now env)).
  { unfold created_of.
    now rewrite dict_get_app_last, Hfree, String.eqb_refl. }
  unfold dict_keys. rewrite map_app. cbn [map fst]. fold (dict_keys d).
  rewrite sort_keys_app_greatest.
  - f_equal. now apply sort_keys_ext.
  - intros x Hx. rewrite Hnew, (Hold x Hx). unfold created_of.
    apply dict_mem_In_keys, dict_mem_true_iff in Hx.
    destruct Hx as [ex Hex]. rewrite Hex.
    rewrite forallb_forall in Hlater.
    apply (Hlater (x, ex)). now apply dict_get_In.
Qed.

Lemma new_note_is_listed_first_witness :
  let d := memory_store three_notes in
  let d' := memory_store (snd (create_memory env_later "User likes go"
                                 three_notes)) in
  exists k older,
    d' = (d ++ [(k, create_memory_entry (entry_now env_later)
                      "User likes go")])%list /\
    sorted_by_created_at d (dict_keys d) = Done older /\
    sorted_by_created_at d' (dict_keys d') = Done (k :: older).
Proof.
  apply (new_note_is_listed_first env_later "User likes go" three_notes).
  reflexivity.
Defined.

(** ** The info resource *)

Lemma get_memory_info_spec (MEMORY_FILE : string) (st : State) :
  get_memory_info MEMORY_FILE st
  = (Done (info_text MEMORY_FILE (List.length (memory_store st))
                     (content_chars (memory_store st))),
     st).
Proof. reflexivity. Qed.

Lemma content_chars_app_last (k : string) (v : Entry) (d : dict) :
  content_chars (d ++ [(k, v)])%list
  = content_chars d + len (content v).
Proof.
  unfold content_chars. rewrite !map_app, list_sum_app. simpl. lia.
Qed.

Lemma content_chars_set (k : string) (v e : Entry) (d : dict) :
  dict_get k d = Some e ->
  content_chars (dict_set k v d) + len (content e)
  = content_chars d + len (content v).
Proof.
  unfold content_chars.
  induction d as [|[k' v'] d IH]; simpl; [discriminate|].
  destruct (String.eqb k k'); simpl.
  - intros H. injection H as ->. lia.
  - intros H. specialize (IH H). lia.
Qed.

Lemma content_chars_del (k : string) (e : Entry) (d : dict) :
  NoDup (dict_keys d) ->
  dict_get k d = Some e ->
  content_chars (dict_del k d) + len (content e) = content_chars d.
Proof.
  induction d as [|[k' v'] d IH]; simpl; [discriminate|].
  intros Hnd Hget. inversion Hnd as [|x l Hnotin Hrest]; subst.
  unfold dict_del. simpl.
  destruct (String.eqb_spec k k') as [->|Hne]; simpl.
  - fold (dict_del k' d). injection Hget as ->.
    rewrite dict_del_absent by now apply dict_get_none_not_in.
    unfold content_chars. simpl. lia.
  - fold (dict_del k d). specialize (IH Hrest Hget).
    unfold content_chars in *. simpl. lia.
Qed.

(** X11.  [get_memory_info] changes nothing and writes no audit record, and
    its two counts follow the calls: a create adds one entry and the number
    of characters of its content, an update of an existing key keeps the
    number of entries and trades the characters of the old content for
    those of the new one, a delete of an existing key takes away one entry
    and the characters of its content, and every other call leaves both
    counts as they were.  Characters are counted as [len] does, a character
    of several bytes once. *)
Theorem info_follows_the_calls
    (MEMORY_FILE : string) (env : Env) (r : request) (st : State) :
  NoDup (dict_keys (memory_store st)) ->
  let st' := snd (call env r st) in
  exists n t n' t',
    get_memory_info MEMORY_FILE st = (Done (info_text MEMORY_FILE n t), st) /\
    get_memory_info MEMORY_FILE st'
      = (Done (info_text MEMORY_FILE n' t'), st') /\
    n = List.length (memory_store st) /\
    t = content_chars (memory_store st) /\
    match r with
    | CreateMemory c => n' = S n /\ t' = t + len c
    | UpdateMemory k c =>
        match dict_get k (memory_store st) with
        | Some e =>
            n' = n /\
            t' + len (content e) = t + len c
        | None => n' = n /\ t' = t
        end
    | DeleteMemory k =>
        match dict_get k (memory_store st) with
        | Some e => S n' = n /\ t' + len (content e) = t
        | None => n' = n /\ t' = t
        end
    | ListMemory => n' = n /\ t' = t
    | ReadMemory _ => n' = n /\ t' = t
    end.
Proof.
  intros Hnd st'.
  exists (List.length (memory_store st)), (content_chars (memory_store st)),
         (List.length (memory_store st')), (content_chars (memory_store st')).
  rewrite !get_memory_info_spec.
  split; [reflexivity|]. split; [reflexivity|]. split; [reflexivity|].
  split; [reflexivity|].
  subst st'.
  destruct (call_spec env r st) as (msg & d' & rec & Hrun & Hd & _).
  rewrite Hrun. cbn [snd memory_store].
  destruct r as [|c|k|k c|k]; cbn [store_after] in Hd.
  - now subst d'.
  - destruct Hd as [kn [_ ->]]. rewrite length_app, content_chars_app_last.
    simpl. split; lia.
  - now subst d'.
  - destruct (dict_get k (memory_store st)) as [e|] eqn:He; subst d';
      [|split; reflexivity].
    split.
    + apply dict_set_length. apply dict_mem_true_iff. now exists e.
    + now apply content_chars_set.
  - destruct (dict_get k (memory_store st)) as [e|] eqn:He; subst d';
      [|split; reflexivity].
    split.
    + now apply (dict_del_length k e).
    + now apply content_chars_del.
Qed.

Lemma info_follows_the_calls_witness :
  let st' := snd (call env_ok (DeleteMemory "memory_20250724225317")
                    two_notes) in
  exists n t n' t',
    get_memory_info "memory_data.json" two_notes
      = (Done (info_text "memory_data.json" n t), two_notes) /\
    get_memory_info "memory_data.json" st'
      = (Done (info_text "memory_data.json" n' t'), st') /\
    n = 2 /\ S n' = n /\ t' + 14 = t.
Proof.
  intros st'.
  destruct (info_follows_the_calls "memory_data.json" env_ok
              (DeleteMemory "memory_20250724225317") two_notes
              ltac:(vm_compute; repeat constructor; simpl;
                    intuition discriminate))
    as (n & t & n' & t' & H1 & H2 & H3 & _ & H4 & H5).
  exists n, t, n', t'. repeat split; assumption.
Defined.

(** ** Decimal numerals of a fixed width *)

Lemma string_of_uint_length (u : Decimal.uint) :
  String.length (NilEmpty.string_of_uint u) = Decimal.nb_digits u.
Proof. induction u; simpl; congruence. Qed.

Lemma usize_nb_digits (u : Decimal.uint) : Unsigned.usize u = Decimal.nb_digits u.
Proof. induction u; simpl; congruence. Qed.

Lemma to_uint_normal (n : nat) : Nat.to_uint n = Decimal.unorm (Nat.to_uint n).
Proof.
  rewrite <- (Unsigned.to_of (Nat.to_uint n)).
  now rewrite Unsigned.of_to.
Qed.

Lemma of_uint_head (x : nat) (d : Decimal.uint) :
  Nat.of_uint_acc d x = x * 10 ^ Decimal.nb_digits d + Nat.of_uint d.
Proof.
  rewrite Unsigned.of_uint_acc_spec, Unsigned.of_uint_alt, usize_nb_digits.
  lia.
Qed.

Lemma to_uint_digits_bound (w n : nat) :
  0 < w -> n < 10 ^ w -> Decimal.nb_digits (Nat.to_uint n) <= w.
Proof.
  intros Hw Hn.
  pose proof (to_uint_normal n) as Hnorm.
  pose proof (Unsigned.of_to n) as Hval.
  assert (Hbig : forall x d, 1 <= x ->
            Nat.of_uint_acc d x < 10 ^ w -> S (Decimal.nb_digits d) <= w).
  { intros x d Hx Hlt. rewrite of_uint_head in Hlt.
    assert (Hpow : 10 ^ Decimal.nb_digits d < 10 ^ w) by nia.
    apply Nat.pow_lt_mono_r_iff in Hpow; lia. }
  destruct (Nat.to_uint n) as [|d|d|d|d|d|d|d|d|d|d] eqn:E;
    simpl Decimal.nb_digits; try lia;
    try (unfold Nat.of_uint in Hval; simpl Nat.of_uint_acc in Hval;
         rewrite <- Hval in Hn; eapply Hbig; [|exact Hn]; lia).
  unfold Decimal.unorm in Hnorm. rewrite DecimalFacts.nzhead_D0 in Hnorm.
  destruct (Decimal.nzhead d) eqn:Ez.
  - injection Hnorm as ->. simpl. lia.
  - exfalso. apply (DecimalFacts.nzhead_nonzero d d). congruence.
  - discriminate.
  - discriminate.
  - discriminate.
  - discriminate.
  - discriminate.
  - discriminate.
  - discriminate.
  - discriminate.
  - discriminate.
Qed.

Lemma str_nat_length_bound (w n : nat) :
  0 < w -> n < 10 ^ w -> String.length (str_nat n) <= w.
Proof.
  intros Hw Hn. unfold str_nat. rewrite string_of_uint_length.
  now apply to_uint_digits_bound.
Qed.

(** A number below [10 ^ w] is written with exactly [w] characters. *)
Lemma fmt_0d_length (w n : nat) :
  0 < w -> n < 10 ^ w -> String.length (fmt_0d w n) = w.
Proof.
  intros Hw Hn. unfold fmt_0d. rewrite append_length, zeros_length.
  pose proof (str_nat_length_bound w n Hw Hn). lia.
Qed.

Lemma all_digits_append (a b : string) :
  all_digits (a ++ b) = all_digits a && all_digits b.
Proof.
  induction a as [|c a IH]; simpl; [reflexivity|].
  now rewrite IH, andb_assoc.
Qed.

Lemma all_digits_zeros (n : nat) : all_digits (zeros n) = true.
Proof. induction n as [|n IH]; simpl; [reflexivity | exact IH]. Qed.

Lemma all_digits_string_of_uint (u : Decimal.uint) :
  all_digits (NilEmpty.string_of_uint u) = true.
Proof. induction u; simpl; auto. Qed.

Lemma fmt_0d_digits (w n : nat) : all_digits (fmt_0d w n) = true.
Proof.
  unfold fmt_0d, str_nat.
  now rewrite all_digits_append, all_digits_zeros, all_digits_string_of_uint.
Qed.

(** ** The order of numerals is the order of numbers *)

Lemma digits_value_bound (s : string) :
  all_digits s = true -> digits_value s < 10 ^ String.length s.
Proof.
  induction s as [|c s IH]; simpl; [lia|].
  intros H. apply andb_prop in H. destruct H as [Hc Hs].
  specialize (IH Hs). unfold is_digit in Hc.
  apply andb_prop in Hc. destruct Hc as [H1 H2].
  apply Nat.leb_le in H1, H2. nia.
Qed.

Lemma digits_value_append (a b : string) :
  digits_value (a ++ b)
  = digits_value a * 10 ^ String.length b + digits_value b.
Proof.
  induction a as [|c a IH]; simpl; [reflexivity|].
  rewrite IH, append_length, Nat.pow_add_r. lia.
Qed.

Lemma digits_value_zeros (n : nat) : digits_value (zeros n) = 0.
Proof. induction n as [|n IH]; simpl; [reflexivity | now rewrite IH]. Qed.

Lemma digits_value_string_of_uint (u : Decimal.uint) :
  digits_value (NilEmpty.string_of_uint u) = Nat.of_uint u.
Proof.
  induction u; cbn [NilEmpty.string_of_uint digits_value];
    [reflexivity|..];
    unfold Nat.of_uint; cbn [Nat.of_uint_acc Nat.tail_mul Nat.tail_addmul];
    rewrite of_uint_head, string_of_uint_length, IHu;
    reflexivity.
Qed.

Lemma digits_value_fmt_0d (w n : nat) : digits_value (fmt_0d w n) = n.
Proof.
  unfold fmt_0d, str_nat.
  rewrite digits_value_append, digits_value_zeros,
    digits_value_string_of_uint, Unsigned.of_to.
  lia.
Qed.

Lemma ascii_compare_nat (c1 c2 : ascii) :
  Ascii.compare c1 c2 = Nat.compare (nat_of_ascii c1) (nat_of_ascii c2).
Proof.
  unfold Ascii.compare, nat_of_ascii. now rewrite N2Nat.inj_compare.
Qed.

(** Two strings of digits of the same length compare as the numbers they
    write. *)
Lemma digits_compare (s1 s2 : string) :
  String.length s1 = String.length s2 ->
  all_digits s1 = true -> all_digits s2 = true ->
  String.compare s1 s2 = Nat.compare (digits_value s1) (digits_value s2).
Proof.
  revert s2. induction s1 as [|c1 s1 IH]; intros [|c2 s2] Hlen H1 H2;
    try discriminate; [reflexivity|].
  simpl in Hlen. injection Hlen as Hlen.
  cbn [all_digits] in H1, H2.
  apply andb_prop in H1, H2. destruct H1 as [Hc1 Hs1], H2 as [Hc2 Hs2].
  pose proof (digits_value_bound s1 Hs1) as B1.
  pose proof (digits_value_bound s2 Hs2) as B2.
  cbn [String.compare digits_value]. rewrite ascii_compare_nat, (IH s2 Hlen Hs1 Hs2).
  unfold is_digit in Hc1, Hc2.
  apply andb_prop in Hc1, Hc2. destruct Hc1 as [L1 U1], Hc2 as [L2 U2].
  apply Nat.leb_le in L1, U1, L2, U2. rewrite Hlen in *.
  set (P := 10 ^ String.length s2) in *.
  set (v1 := digits_value s1) in *. set (v2 := digits_value s2) in *.
  set (n1 := nat_of_ascii c1) in *. set (n2 := nat_of_ascii c2) in *.
  destruct (Nat.compare_spec n1 n2) as [E|E|E].
  - rewrite E. destruct (Nat.compare_spec v1 v2) as [F|F|F]; symmetry.
    + apply Nat.compare_eq_iff. lia.
    + apply Nat.compare_lt_iff. lia.
    + apply Nat.compare_gt_iff. lia.
  - symmetry. apply Nat.compare_lt_iff. nia.
  - symmetry. apply Nat.compare_gt_iff. nia.
Qed.

Lemma fmt_0d_compare (w a b : nat) :
  0 < w -> a < 10 ^ w -> b < 10 ^ w ->
  String.compare (fmt_0d w a) (fmt_0d w b) = Nat.compare a b.
Proof.
  intros Hw Ha Hb.
  rewrite digits_compare.
  - now rewrite !digits_value_fmt_0d.
  - now rewrite !fmt_0d_length.
  - apply fmt_0d_digits.
  - apply fmt_0d_digits.
Qed.

Lemma string_compare_refl (s : string) : String.compare s s = Eq.
Proof.
  induction s as [|c s IH]; simpl; [reflexivity|].
  now rewrite ascii_compare_refl.
Qed.

(** Strings that begin with parts of the same length compare part by
    part. *)
Lemma string_compare_append (a a' b b' : string) :
  String.length a = String.length a' ->
  String.compare (a ++ b) (a' ++ b')
  = match String.compare a a' with
    | Eq => String.compare b b'
    | c => c
    end.
Proof.
  revert a'. induction a as [|x a IH]; intros [|x' a'] Hlen;
    try discriminate; [reflexivity|].
  simpl in Hlen. injection Hlen as Hlen. simpl.
  destruct (Ascii.compare x x'); [now apply IH | reflexivity | reflexivity].
Qed.

(** ** Timestamps and clock readings *)

Lemma pow_10_4 : 10 ^ 4 = 10 * 1000.
Proof.
  change 4 with (1 + 3). rewrite Nat.pow_add_r.
  now change (10 ^ 1) with 10; change (10 ^ 3) with 1000.
Qed.

Lemma pow_10_6 : 10 ^ 6 = 1000 * 1000.
Proof.
  change 6 with (3 + 3). rewrite Nat.pow_add_r.
  now change (10 ^ 3) with 1000.
Qed.

Lemma datetime_ok_bounds (t : datetime) :
  datetime_ok t ->
  year t < 10 ^ 4 /\ month t < 10 ^ 2 /\ day t < 10 ^ 2 /\
  hour t < 10 ^ 2 /\ minute t < 10 ^ 2 /\ second t < 10 ^ 2 /\
  microsecond t < 10 ^ 6.
Proof.
  unfold datetime_ok. rewrite pow_10_4, pow_10_6.
  change (10 ^ 2) with 100. lia.
Qed.

Lemma fraction_compare (a b : nat) :
  a < 10 ^ 6 -> b < 10 ^ 6 ->
  String.compare
    (if (a =? 0)%nat then "" else "." ++ fmt_0d 6 a)
    (if (b =? 0)%nat then "" else "." ++ fmt_0d 6 b)
  = Nat.compare a b.
Proof.
  intros Ha Hb.
  destruct (Nat.eqb_spec a 0) as [->|Na]; destruct (Nat.eqb_spec b 0) as [->|Nb].
  - reflexivity.
  - destruct b; [congruence | reflexivity].
  - destruct a; [congruence | reflexivity].
  - cbn [append String.compare]. rewrite ascii_compare_refl.
    apply fmt_0d_compare; [lia | assumption | assumption].
Qed.

Ltac next_field :=
  rewrite string_compare_append by (rewrite !fmt_0d_length; lia);
  rewrite fmt_0d_compare by lia;
  match goal with
  | |- context [Nat.compare ?x ?y] =>
      destruct (Nat.compare x y); [|reflexivity|reflexivity]
  end;
  cbn [append String.compare]; rewrite ?ascii_compare_refl.

(** The timestamps of two clock readings compare, as strings, as the
    readings do. *)
Lemma isoformat_compare (a b : datetime) :
  datetime_ok a -> datetime_ok b ->
  String.compare (isoformat a) (isoformat b) = datetime_compare a b.
Proof.
  intros Ha Hb.
  apply datetime_ok_bounds in Ha, Hb.
  destruct Ha as (Ya & Ma & Da & ha & ma & sa & ua).
  destruct Hb as (Yb & Mb & Db & hb & mb & sb & ub).
  unfold isoformat, datetime_compare.
  do 6 next_field.
  now apply fraction_compare.
Qed.

Lemma datetime_compare_eq (a b : datetime) :
  datetime_compare a b = Eq <-> a = b.
Proof.
  split.
  - unfold datetime_compare.
    destruct a as [y1 m1 d1 h1 i1 s1 u1], b as [y2 m2 d2 h2 i2 s2 u2]. simpl.
    repeat match goal with
           | |- context [Nat.compare ?x ?y] =>
               destruct (Nat.compare_spec x y); try discriminate
           end.
    intros _. congruence.
  - intros ->. unfold datetime_compare. now rewrite !Nat.compare_refl.
Qed.

(** X12.  The timestamp strings that the program stores and sorts by keep
    the order of the clock readings they were made from: one timestamp is
    smaller than another, as a string, exactly when its clock reading is
    earlier, and two timestamps are equal exactly when the readings are.
    This holds also when one of them has no fraction because its
    microseconds are zero. *)
Theorem timestamps_order_as_clock (a b : datetime) :
  datetime_ok a -> datetime_ok b ->
  (String.ltb (isoformat a) (isoformat b) = true
   <-> datetime_compare a b = Lt) /\
  (String.leb (isoformat a) (isoformat b) = true
   <-> datetime_compare a b <> Gt) /\
  (isoformat a = isoformat b <-> a = b).
Proof.
  intros Ha Hb. pose proof (isoformat_compare a b Ha Hb) as H.
  unfold String.ltb, String.leb. rewrite H.
  split; [|split].
  - destruct (datetime_compare a b); split; congruence.
  - destruct (datetime_compare a b); split; congruence.
  - split.
    + intros E. apply datetime_compare_eq. rewrite <- H, E.
      apply string_compare_refl.
    + now intros ->.
Qed.

Ltac datetime_ok_here :=
  try unfold datetime_ok;
  cbn [key_now entry_now env_ok env_later env_clock_back env_disk_full
       t_2024 t_2025 t_2026
       year month day hour minute second microsecond];
  lia.

Lemma timestamps_order_as_clock_witness :
  String.ltb (isoformat t_2024) (isoformat t_2025) = true
  <-> datetime_compare t_2024 t_2025 = Lt.
Proof.
  apply (proj1 (timestamps_order_as_clock t_2024 t_2025
                  ltac:(datetime_ok_here) ltac:(datetime_ok_here))).
Defined.

Lemma strongly_sorted_weaken (R R' : string -> string -> Prop)
    (l : list string) :
  (forall a b, R a b -> R' a b) ->
  StronglySorted R l -> StronglySorted R' l.
Proof.
  intros HR. induction 1 as [|a l Hs IH Hall]; constructor.
  - exact IH.
  - eapply Forall_impl; [|exact Hall]. intros b. apply HR.
Qed.

(** X13.  [list_memory] goes through the notes latest first in the sense of
    the clock: of two notes whose creation times are timestamps of clock
    readings, the one that comes first was not created before the other. *)
Theorem list_order_is_chronological (st : State) :
  let d := memory_store st in
  exists sorted_keys,
    sorted_by_created_at d (dict_keys d) = Done sorted_keys /\
    StronglySorted
      (fun k1 k2 =>
         forall e1 e2 t1 t2,
           dict_get k1 d = Some e1 -> dict_get k2 d = Some e2 ->
           datetime_ok t1 -> datetime_ok t2 ->
           created_at e1 = isoformat t1 -> created_at e2 = isoformat t2 ->
           datetime_compare t1 t2 <> Lt)
      sorted_keys.
Proof.
  intros d. exists (sort_keys (created_of d) (dict_keys d)).
  split; [apply sorted_by_created_at_spec, keys_in_store|].
  eapply strongly_sorted_weaken; [|apply sort_keys_sorted].
  intros k1 k2 Hdesc e1 e2 t1 t2 H1 H2 Ht1 Ht2 E1 E2 Hlt.
  unfold desc, created_of in Hdesc. rewrite H1, H2, E1, E2 in Hdesc.
  unfold String.leb in Hdesc.
  rewrite String.compare_antisym, (isoformat_compare t1 t2 Ht1 Ht2), Hlt
    in Hdesc.
  discriminate.
Qed.

(** ** The shape of the keys *)

Lemma append_inj_length (a a' b b' : string) :
  String.length a = String.length a' ->
  a ++ b = a' ++ b' -> a = a' /\ b = b'.
Proof.
  revert a'. induction a as [|x a IH]; intros [|x' a'] Hlen H;
    try discriminate; [now split|].
  simpl in Hlen, H. injection Hlen as Hlen. injection H as -> H.
  destruct (IH a' Hlen H) as [-> ->]. now split.
Qed.

Lemma strftime_YmdHMS_shape (t : datetime) :
  datetime_ok t ->
  String.length (strftime_YmdHMS t) = 14 /\
  all_digits (strftime_YmdHMS t) = true.
Proof.
  intros Ht. apply datetime_ok_bounds in Ht.
  destruct Ht as (Y & M & D & h & m & s & _).
  unfold strftime_YmdHMS. split.
  - rewrite !append_length, !fmt_0d_length by lia. reflexivity.
  - now rewrite !all_digits_append, !fmt_0d_digits.
Qed.

(** X14.  The key under which [create_memory] stores a note is [memory_],
    then the fourteen digits of the date and time of its clock reading,
    then either nothing or [_] and a counter of at least two digits. *)
Theorem created_key_shape (env : Env) (c : string) (st : State) :
  datetime_ok (key_now env) ->
  exists k digits suffix,
    memory_store (snd (create_memory env c st))
      = (memory_store st ++
         [(k, create_memory_entry (entry_now env) c)])%list /\
    k = "memory_" ++ digits ++ suffix /\
    digits = strftime_YmdHMS (key_now env) /\
    String.length digits = 14 /\
    all_digits digits = true /\
    (suffix = "" \/
     exists n, 1 <= n /\ suffix = "_" ++ fmt_0d 2 n /\
               2 <= String.length (fmt_0d 2 n) /\
               all_digits (fmt_0d 2 n) = true).
Proof.
  intros Ht.
  destruct (create_memory_spec env c st) as [j [_ [_ Hrun]]].
  destruct (strftime_YmdHMS_shape _ Ht) as [Hlen Hdig].
  rewrite Hrun. cbn [snd memory_store].
  exists (candidate (generate_auto_key (key_now env)) j),
         (strftime_YmdHMS (key_now env)),
         (match j with 0 => "" | S _ => "_" ++ fmt_0d 2 j end).
  split; [reflexivity|]. split.
  - unfold generate_auto_key. destruct j as [|j]; cbn [candidate].
    + now rewrite append_empty_r.
    + now rewrite append_assoc.
  - split; [reflexivity|]. split; [exact Hlen|]. split; [exact Hdig|].
    destruct j as [|j]; [now left | right].
    exists (S j). split; [lia|]. split; [reflexivity|].
    split; [apply fmt_0d_min_width | apply fmt_0d_digits].
Qed.

(** X15.  Two clock readings give the same time-based key exactly when
    they fall in the same second: the microseconds never count, and
    readings of different seconds never collide. *)
Theorem same_key_iff_same_second (a b : datetime) :
  datetime_ok a -> datetime_ok b ->
  (generate_auto_key a = generate_auto_key b <->
   year a = year b /\ month a = month b /\ day a = day b /\
   hour a = hour b /\ minute a = minute b /\ second a = second b).
Proof.
  intros Ha Hb.
  apply datetime_ok_bounds in Ha, Hb.
  destruct Ha as (Ya & Ma & Da & ha & ma & sa & _).
  destruct Hb as (Yb & Mb & Db & hb & mb & sb & _).
  unfold generate_auto_key, strftime_YmdHMS. split.
  - intros H. apply append_cancel_l in H.
    repeat match type of H with
           | fmt_0d ?w ?x ++ _ = fmt_0d ?w ?y ++ _ =>
               let E := fresh "E" in
               apply append_inj_length in H;
                 [destruct H as [E H]; apply fmt_0d_inj in E
                 |rewrite !fmt_0d_length by lia; reflexivity]
           end.
    apply fmt_0d_inj in H. repeat split; assumption.
  - intros (-> & -> & -> & -> & -> & ->). reflexivity.
Qed.

Lemma created_key_shape_witness :
  exists k digits suffix,
    memory_store (snd (create_memory env_ok "User likes chess" two_notes))
      = (memory_store two_notes ++
         [(k, create_memory_entry (entry_now env_ok) "User likes chess")])%list /\
    k = "memory_" ++ digits ++ suffix /\
    String.length digits = 14 /\
    all_digits digits = true.
Proof.
  destruct (created_key_shape env_ok "User likes chess" two_notes
              ltac:(datetime_ok_here))
    as (k & digits & suffix & H1 & H2 & _ & H4 & H5 & _).
  exists k, digits, suffix. repeat split; assumption.
Defined.

Lemma same_key_iff_same_second_witness :
  generate_auto_key t_2025
  = generate_auto_key (mk_datetime 2025 7 24 22 53 17 999) <->
  year t_2025 = 2025 /\ month t_2025 = 7 /\ day t_2025 = 24 /\
  hour t_2025 = 22 /\ minute t_2025 = 53 /\ second t_2025 = 17.
Proof.
  apply (same_key_iff_same_second t_2025 (mk_datetime 2025 7 24 22 53 17 999)).
  - datetime_ok_here.
  - unfold datetime_ok. cbn [year month day hour minute second microsecond].
    lia.
Defined.

(** ** What the list shows *)

Lemma substring_prefix (a b : string) :
  substring 0 (String.length a) (a ++ b) = a.
Proof. induction a as [|c a IH]; simpl; [now destruct b | now rewrite IH]. Qed.

Lemma substring_skip (a b : string) (n m : nat) :
  substring (String.length a + n) m (a ++ b) = substring n m b.
Proof. induction a as [|c a IH]; simpl; [reflexivity | exact IH]. Qed.

Lemma isoformat_date_and_time (t : datetime) :
  datetime_ok t ->
  substring 0 10 (isoformat t)
  = fmt_0d 4 (year t) ++ "-" ++ fmt_0d 2 (month t) ++ "-" ++ fmt_0d 2 (day t)
  /\
  substring 11 8 (isoformat t)
  = fmt_0d 2 (hour t) ++ ":" ++ fmt_0d 2 (minute t) ++ ":" ++
    fmt_0d 2 (second t).
Proof.
  intros Ht. apply datetime_ok_bounds in Ht.
  destruct Ht as (Y & M & D & h & m & s & _).
  set (date := fmt_0d 4 (year t) ++ "-" ++ fmt_0d 2 (month t) ++ "-" ++
               fmt_0d 2 (day t)).
  set (time := fmt_0d 2 (hour t) ++ ":" ++ fmt_0d 2 (minute t) ++ ":" ++
               fmt_0d 2 (second t)).
  set (rest := if (microsecond t =? 0)%nat then ""
               else "." ++ fmt_0d 6 (microsecond t)).
  assert (Hd : String.length date = 10).
  { unfold date. rewrite !append_length, !fmt_0d_length by lia. reflexivity. }
  assert (Ht : String.length time = 8).
  { unfold time. rewrite !append_length, !fmt_0d_length by lia. reflexivity. }
  assert (Hiso : isoformat t = date ++ "T" ++ time ++ rest).
  { unfold isoformat, date, time, rest. now rewrite !append_assoc. }
  rewrite Hiso. split.
  - rewrite <- Hd. apply substring_prefix.
  - change 11 with (10 + 1). rewrite <- Hd, substring_skip.
    cbn [append substring]. rewrite <- Ht. apply substring_prefix.
Qed.

Lemma all_digits_ascii (s : string) :
  all_digits s = true -> ascii_only s = true.
Proof.
  induction s as [|c s IH]; [reflexivity|]. cbn [all_digits ascii_only].
  intros H. apply andb_prop in H. destruct H as [Hc Hs].
  rewrite (IH Hs), andb_true_r. unfold is_digit in Hc. unfold is_ascii.
  apply andb_prop in Hc. destruct Hc as [_ Hc]. apply Nat.leb_le in Hc.
  apply Nat.ltb_lt. lia.
Qed.

Lemma fmt_0d_ascii (w n : nat) : ascii_only (fmt_0d w n) = true.
Proof. apply all_digits_ascii, fmt_0d_digits. Qed.

Lemma isoformat_ascii (t : datetime) : ascii_only (isoformat t) = true.
Proof.
  unfold isoformat. rewrite !ascii_only_append, !fmt_0d_ascii.
  destruct (microsecond t =? 0)%nat; [reflexivity|].
  rewrite ascii_only_append, fmt_0d_ascii. reflexivity.
Qed.

(** The slices [[:10]] and [[11:19]] of a time stamp. *)
Lemma isoformat_slices (t : datetime) :
  datetime_ok t ->
  slice 0 10 (isoformat t)
  = fmt_0d 4 (year t) ++ "-" ++ fmt_0d 2 (month t) ++ "-" ++ fmt_0d 2 (day t)
  /\
  slice 11 19 (isoformat t)
  = fmt_0d 2 (hour t) ++ ":" ++ fmt_0d 2 (minute t) ++ ":" ++
    fmt_0d 2 (second t).
Proof.
  intros Ht. rewrite !slice_ascii by apply isoformat_ascii.
  now apply isoformat_date_and_time.
Qed.

(** X16.  For a note that [create_memory_entry] made at a clock reading,
    the block that [list_memory] writes shows the number of the note, its
    key, its content, the date and the time of day of that reading, the
    microseconds left out, and the number of characters of the content. *)
Theorem listed_block_shows_creation_time
    (d : dict) (i : nat) (k : string) (rest : list string) (result : string)
    (t : datetime) (c : string) :
  datetime_ok t ->
  dict_get k d = Some (create_memory_entry t c) ->
  render_entries d i (k :: rest) result
  = render_entries d (S i) rest
      (result ++ str_nat i ++ ". [" ++ k ++ "]" ++ nl ++
       "   " ++ c ++ nl ++
       "   " ++ fmt_0d 4 (year t) ++ "-" ++ fmt_0d 2 (month t) ++ "-" ++
                fmt_0d 2 (day t) ++ " " ++
                fmt_0d 2 (hour t) ++ ":" ++ fmt_0d 2 (minute t) ++ ":" ++
                fmt_0d 2 (second t) ++
       " (" ++ str_nat (len c) ++ " chars)" ++ nl ++ nl).
Proof.
  intros Ht Hget. destruct (isoformat_slices t Ht) as [Hdate Htime].
  cbn [render_entries]. unfold getitem. rewrite Hget.
  cbn [obind create_memory_entry created_at content].
  rewrite Hdate, Htime. f_equal. now rewrite !append_assoc.
Qed.

Lemma listed_block_shows_creation_time_witness :
  render_entries
    [("memory_20250724225317", create_memory_entry t_2025 cafe)] 1
    ["memory_20250724225317"] ""
  = Done ("1. [memory_20250724225317]" ++ nl ++
          "   " ++ cafe ++ nl ++
          "   2025-07-24 22:53:17 (4 chars)" ++ nl ++ nl).
Proof.
  apply (listed_block_shows_creation_time
           [("memory_20250724225317", create_memory_entry t_2025 cafe)] 1
           "memory_20250724225317" [] "" t_2025 cafe).
  - datetime_ok_here.
  - reflexivity.
Defined.

(** X17.  The answer of [list_memory] on a store with entries is the line
    with the number of entries, a blank line, and then one block for every
    entry, numbered from 1 in the order of the list, with a blank line
    between two blocks; a block gives the number, the key, the content, the
    first ten characters of the creation time and its characters 11 to 18,
    and the number of characters of the content; the last block ends the answer, no white space
    follows it.  On an empty store the answer is the one sentence that
    nothing is saved.  In both cases the call is logged with the number of
    entries, and with no key and no entry. *)
Theorem list_memory_answer (env : Env) (st : State) :
  let d := memory_store st in
  exists sorted_keys,
    sorted_by_created_at d (dict_keys d) = Done sorted_keys /\
    List.length (numbered_blocks d 1 sorted_keys) = List.length d /\
    fst (list_memory env st)
    = Done (match d with
            | [] => "No user info saved yet."
            | _ :: _ =>
                brain ++ " " ++ str_nat (List.length d) ++
                " memory entries:" ++ nl ++ nl ++
                String.concat (nl ++ nl) (numbered_blocks d 1 sorted_keys)
            end) /\
    log_file (snd (list_memory env st))
    = (log_file st ++
       if log_writable (log_env env)
       then [mk_log_entry (isoformat (log_now (log_env env)))
                          (log_uuid (log_env env)) "list" None None None
                          true None [("entry_count", MInt (List.length d))]]
       else [])%list.
Proof.
  intros d. set (ks := sort_keys (created_of d) (dict_keys d)).
  assert (Hin : forall k, In k ks -> dict_mem k d = true)
    by apply sorted_keys_in_store.
  assert (Hlen : List.length ks = List.length d).
  { unfold ks. rewrite <- (Permutation_length (sort_keys_perm _ _)).
    unfold dict_keys. apply length_map. }
  exists ks.
  split; [apply sorted_by_created_at_spec, keys_in_store|].
  split; [now rewrite numbered_blocks_length|].
  split; [exact (list_memory_text env st)|].
  destruct (list_memory_spec env st) as [msg [Hrun _]].
  rewrite Hrun. reflexivity.
Qed.

(** A note with an accent: [read_memory], [list_memory] and the info
    resource count its four characters, not its five bytes. *)
Example characters_are_counted :
  fst (read_memory env_ok "memory_20250724225317"
         (snd (create_memory env_ok cafe empty_state)))
    = Done ("Key: 'memory_20250724225317'" ++ nl ++
            cafe ++ nl ++
            "--- Metadata ---" ++ nl ++
            "Created: 2025-07-24T22:53:17.000250" ++ nl ++
            "Updated: 2025-07-24T22:53:17.000250" ++ nl ++
            "Chars: 4") /\
  fst (list_memory env_ok (snd (create_memory env_ok cafe empty_state)))
    = Done (brain ++ " 1 memory entries:" ++ nl ++ nl ++
            "1. [memory_20250724225317]" ++ nl ++
            "   " ++ cafe ++ nl ++
            "   2025-07-24 22:53:17 (4 chars)") /\
  fst (get_memory_info "memory_data.json"
         (snd (create_memory env_ok cafe empty_state)))
    = Done (info_text "memory_data.json" 1 4).
Proof. vm_compute. repeat split. Qed.

(** ** A clock that never goes back *)

Lemma not_after_step (env : Env) (r : request) (st : State) (d' : dict)
    (t : datetime) :
  store_after env st r d' ->
  datetime_ok t -> datetime_ok (entry_now env) ->
  datetime_compare t (entry_now env) <> Gt ->
  not_after t (memory_store st) ->
  not_after (entry_now env) d'.
Proof.
  intros Hd Ht Hnow Hle Hinv.
  assert (Hclock : String.leb (isoformat t) (isoformat (entry_now env)) = true).
  { unfold String.leb. rewrite (isoformat_compare _ _ Ht Hnow).
    destruct (datetime_compare t (entry_now env)); congruence. }
  assert (Hold : forall k e, dict_get k (memory_store st) = Some e ->
            String.leb (created_at e) (updated_at e) = true /\
            String.leb (updated_at e) (isoformat (entry_now env)) = true).
  { intros k e He. destruct (Hinv k e He) as [H1 H2]. split; [exact H1|].
    eapply string_leb_trans; eassumption. }
  intros k e' He'.
  destruct r as [|c|k0|k0 c|k0]; cbn [store_after] in Hd.
  - subst d'. eapply Hold; eassumption.
  - destruct Hd as [kn [_ ->]]. rewrite dict_get_app_last in He'.
    destruct (dict_get k (memory_store st)) as [e|] eqn:E.
    + injection He' as <-. eapply Hold; eassumption.
    + destruct (String.eqb k kn); [|discriminate].
      injection He' as <-. split; apply string_leb_refl.
  - subst d'. eapply Hold; eassumption.
  - destruct (dict_get k0 (memory_store st)) as [e0|] eqn:E0;
      subst d'; [|eapply Hold; eassumption].
    destruct (String.eqb_spec k k0) as [->|Hne].
    + rewrite dict_get_set_same in He'. injection He' as <-.
      cbn [updated_entry_of created_at updated_at].
      destruct (Hold k0 e0 E0) as [H1 H2].
      split; [|apply string_leb_refl].
      eapply string_leb_trans; eassumption.
    + rewrite dict_get_set_other in He' by assumption.
      eapply Hold; eassumption.
  - destruct (dict_get k0 (memory_store st)) as [e0|] eqn:E0;
      subst d'; [|eapply Hold; eassumption].
    destruct (String.eqb_spec k k0) as [->|Hne].
    + rewrite dict_get_del_same in He'. discriminate.
    + rewrite dict_get_del_other in He' by assumption.
      eapply Hold; eassumption.
Qed.

(** X18.  With a clock that never goes back, the timestamps stay in order:
    if every entry of the store was created no later than it was updated,
    and updated no later than the clock shows, then after any sequence of
    calls every entry still has [created_at <= updated_at].  In particular
    this holds of every store that the calls build up from the empty
    one. *)
Theorem timestamps_in_order_with_steady_clock
    (t0 : datetime) (calls : list (Env * request)) (st : State) :
  datetime_ok t0 ->
  not_after t0 (memory_store st) ->
  clock_never_back t0 calls ->
  store_inv (memory_store (run calls st)).
Proof.
  revert t0 st. induction calls as [|[env r] calls IH]; intros t0 st Ht Hinv Hc.
  - intros k e He. now destruct (Hinv k e He).
  - cbn [run]. destruct Hc as (Hnow & Hle & Hrest).
    apply (IH (entry_now env)); [exact Hnow| |exact Hrest].
    destruct (call_spec env r st) as (msg & d' & rec & Hrun & Hd & _).
    rewrite Hrun. cbn [snd memory_store].
    apply (not_after_step env r st d' t0); assumption.
Qed.

Lemma timestamps_in_order_with_steady_clock_witness :
  store_inv
    (memory_store
       (run [(env_clock_back, CreateMemory "User likes tea");
             (env_ok, UpdateMemory "memory_20240102030405" "User likes coffee");
             (env_later, CreateMemory "User likes go")]
            empty_state)).
Proof.
  apply (timestamps_in_order_with_steady_clock t_2024).
  - datetime_ok_here.
  - intros k e H. discriminate H.
  - cbn [clock_never_back].
    repeat split; try datetime_ok_here; vm_compute; discriminate.
Defined.

(** ** Logging is beside the point *)

Lemma first_free_unique (base : string) (d : dict) (j j' : nat) :
  dict_mem (candidate base j) d = false ->
  (forall m, m < j -> dict_mem (candidate base m) d = true) ->
  dict_mem (candidate base j') d = false ->
  (forall m, m < j' -> dict_mem (candidate base m) d = true) ->
  j = j'.
Proof.
  intros Hf Ha Hf' Ha'.
  destruct (Nat.lt_trichotomy j j') as [Hlt|[Heq|Hgt]]; [|assumption|].
  - rewrite (Ha' j Hlt) in Hf. discriminate.
  - rewrite (Ha j' Hgt) in Hf'. discriminate.
Qed.

(** X19.  Logging never gets in the way of a call: surroundings that differ
    only in what [log_operation] reads (its clock, the uuid, whether the
    log can be appended to) give the same answer and leave the same
    store. *)
Theorem logging_never_changes_the_outcome
    (env1 env2 : Env) (r : request) (st : State) :
  same_but_log env1 env2 ->
  fst (call env1 r st) = fst (call env2 r st) /\
  memory_store (snd (call env1 r st)) = memory_store (snd (call env2 r st)).
Proof.
  intros (Hk & He & Hf).
  destruct r as [|c|k|k c|k]; cbn [call].
  - destruct (list_memory_spec env1 st) as [m1 [H1 M1]].
    destruct (list_memory_spec env2 st) as [m2 [H2 M2]].
    rewrite H1, H2. cbn [fst snd memory_store]. split; [|reflexivity].
    f_equal. destruct (memory_store st); [congruence|].
    destruct M1 as [t1 [T1 ->]], M2 as [t2 [T2 ->]]. congruence.
  - destruct (create_memory_spec env1 c st) as [j1 [F1 [A1 H1]]].
    destruct (create_memory_spec env2 c st) as [j2 [F2 [A2 H2]]].
    rewrite <- Hk in F2, A2, H2. rewrite <- He, <- Hf in H2.
    rewrite (first_free_unique _ _ _ _ F2 A2 F1 A1) in H2.
    rewrite H1, H2. split; reflexivity.
  - destruct (dict_get k (memory_store st)) as [e|] eqn:E.
    + rewrite (read_memory_present env1 k st e E),
        (read_memory_present env2 k st e E). split; reflexivity.
    + rewrite (read_memory_absent env1 k st E),
        (read_memory_absent env2 k st E). split; reflexivity.
  - destruct (dict_get k (memory_store st)) as [e|] eqn:E.
    + rewrite (update_memory_present env1 k c st e E),
        (update_memory_present env2 k c st e E).
      cbn [fst snd memory_store]. unfold updated_entry_of.
      rewrite He, Hf. split; reflexivity.
    + rewrite (update_memory_absent env1 k c st E),
        (update_memory_absent env2 k c st E). split; reflexivity.
  - destruct (dict_get k (memory_store st)) as [e|] eqn:E.
    + rewrite (delete_memory_present env1 k st e E),
        (delete_memory_present env2 k st e E).
      cbn [fst snd memory_store]. rewrite Hf. split; reflexivity.
    + rewrite (delete_memory_absent env1 k st E),
        (delete_memory_absent env2 k st E). split; reflexivity.
Qed.

Lemma logging_never_changes_the_outcome_witness :
  fst (call env_ok (CreateMemory "User likes tea") two_notes)
  = fst (call env_log_down (CreateMemory "User likes tea") two_notes) /\
  memory_store (snd (call env_ok (CreateMemory "User likes tea") two_notes))
  = memory_store
      (snd (call env_log_down (CreateMemory "User likes tea") two_notes)).
Proof.
  apply (logging_never_changes_the_outcome env_ok env_log_down).
  repeat split.
Defined.
